(** * croo/cromwell_metadata.py: the task graph built from Cromwell's metadata

    A shallow embedding of [src/croo/cromwell_metadata.py].

    - The decoded metadata document is a [json] tree.  A Python [dict] keeps
      its insertion order and the parser emits nodes in that order, so a
      mapping is an association list.
    - An exception is a value of [exn]; a function that may raise returns a
      [result].
    - [self._dag.add_node(n)] is the only effect of the parser: a run of the
      parser is the sequence of nodes handed to [add_node], in order, together
      with the way the run ended ([run]).
    - Imported libraries ([AutoURI], [WDL.parse_document], [re.findall],
      [json.loads]) are parameters of the sections that use them; Python
      built-ins on [str] ([split], [join], [startswith], [strip]) are written
      out on byte strings. *)

From Stdlib Require Import String Ascii List ZArith Bool Lia.
Import ListNotations.

Local Open Scope string_scope.
Local Open Scope list_scope.
Local Open Scope Z_scope.

(** ** Decoded JSON documents *)

(** Numbers are integers: the parser reads a number only as a shard index and
    the scanner ignores every number. *)
Unset Elimination Schemes.
Inductive json : Type :=
| JNull
| JBool (b : bool)
| JInt (z : Z)
| JStr (s : string)
| JList (elems : list json)
| JDict (items : list (string * json)).
Set Elimination Schemes.

(** [k in d] and [d[k]] on the items of a mapping. *)
Fixpoint dict_get (key : string) (items : list (string * json)) : option json :=
  match items with
  | [] => None
  | (k, v) :: rest => if String.eqb k key then Some v else dict_get key rest
  end.

(** The same lookup with the continuation applied in place to the value found;
    recursive functions on [json] go through it so that the value they
    recurse on is visibly a part of the mapping. *)
Definition dict_get_k {A : Type} (key : string) (found : json -> A) (missing : A)
  : list (string * json) -> A :=
  fix look (items : list (string * json)) : A :=
    match items with
    | [] => missing
    | (k, v) :: rest => if String.eqb k key then found v else look rest
    end.

(** ** Exceptions *)

Inductive exn : Type :=
| ValueError (msg : string)
| KeyError (key : string)
| TypeError
| AttributeError
| OtherError (name : string).

Inductive result (A : Type) : Type :=
| Ok (a : A)
| Raise (e : exn).
Arguments Ok {A} a.
Arguments Raise {A} e.

(** ** Built-ins on [str] *)

Module Str.

(** ['.'.join(parts)] *)
Definition join (sep : string) (parts : list string) : string :=
  String.concat sep parts.

(** [s.split(sep)] for a one-character separator: never the empty list. *)
Fixpoint split (sep : ascii) (s : string) : list string :=
  match s with
  | EmptyString => [EmptyString]
  | String c rest =>
      if Ascii.eqb c sep then EmptyString :: split sep rest
      else match split sep rest with
           | seg :: segs => String c seg :: segs
           | [] => [String c EmptyString]
           end
  end.

(** [s.startswith(p)] *)
Definition startswith (p s : string) : bool := String.prefix p s.

(** White space as [str.isspace] has it on the ASCII range: TAB, LF, VT, FF,
    CR, the separators 0x1c-0x1f and the space. *)
Definition isspace (c : ascii) : bool :=
  let n := nat_of_ascii c in
  ((9 <=? n) && (n <=? 13))%nat || ((28 <=? n) && (n <=? 32))%nat.

Fixpoint lstrip (s : string) : string :=
  match s with
  | EmptyString => EmptyString
  | String c rest => if isspace c then lstrip rest else s
  end.

Fixpoint rstrip (s : string) : string :=
  match s with
  | EmptyString => EmptyString
  | String c rest =>
      match rstrip rest with
      | EmptyString => if isspace c then EmptyString else String c EmptyString
      | kept => String c kept
      end
  end.

(** [s.strip()] *)
Definition strip (s : string) : string := rstrip (lstrip s).

(** [s.split('\n')] *)
Definition lines (s : string) : list string := split "010"%char s.

End Str.

(** ** The node model *)

(** A triple [(field_path, locator, list_index)] of [find_files_in_dict]. *)
Definition file_triple : Type := string * string * list Z.

Definition triple_name (t : file_triple) : string := fst (fst t).
Definition triple_path (t : file_triple) : string := snd (fst t).
Definition triple_idx (t : file_triple) : list Z := snd t.

(** [CMNode]: the namedtuple, [None]-able fields as options. *)
Record CMNode : Type := mkCMNode {
  type : string;
  shard_idx : list Z;
  task_name : option string;
  output_name : option string;
  output_path : option string;
  all_outputs : option (list file_triple);
  all_inputs : option (list file_triple)
}.

Definition list_Z_eqb (a b : list Z) : bool :=
  if list_eq_dec Z.eq_dec a b then true else false.

Definition opt_string_eqb (a b : option string) : bool :=
  match a, b with
  | Some x, Some y => String.eqb x y
  | None, None => true
  | _, _ => false
  end.

(** [x in l] for an optional string [x] and a list of strings. *)
Definition opt_string_in (x : option string) (l : list string) : bool :=
  match x with
  | Some p => existsb (String.eqb p) l
  | None => false
  end.

Definition supported_type (t : string) : bool :=
  String.eqb t "task" || String.eqb t "output".

(** [is_parent_cmnode(n1, n2)] *)
Definition is_parent_cmnode (n1 n2 : CMNode) : result bool :=
  if negb (supported_type (type n1)) || negb (supported_type (type n2)) then
    Raise (ValueError ("Unsupported CMNode type: " ++ type n1 ++ "."))
  else if String.eqb (type n1) "task" && String.eqb (type n2) "output" then
    Ok (opt_string_eqb (task_name n1) (task_name n2)
        && list_Z_eqb (shard_idx n1) (shard_idx n2))
  else if String.eqb (type n1) "output" && String.eqb (type n2) "task" then
    Ok (match all_inputs n2 with
        | None => false
        | Some triples => opt_string_in (output_path n1) (map triple_path triples)
        end)
  else Ok false.

(** ** The resource-locator scanner *)

(** Concatenation of the results over a list, the position counted from
    [i] as [enumerate] does. *)
Definition flat_mapi {A B : Type} (f : Z -> A -> list B) : Z -> list A -> list B :=
  fix go (i : Z) (l : list A) : list B :=
    match l with
    | [] => []
    | x :: rest => f i x ++ go (i + 1) rest
    end.

(** [list_idx if list_idx else (-1,)] *)
Definition idx_or_sentinel (list_idx : list Z) : list Z :=
  match list_idx with
  | [] => [-1]
  | _ => list_idx
  end.

Section Scanner.

(** [AutoURI(d).is_valid] *)
Variable is_valid : string -> bool.

(** [find_files_in_dict(d, parent, list_idx)] *)
Fixpoint find_files_in_dict (d : json) (parent : list string) (list_idx : list Z)
  {struct d} : list file_triple :=
  match d with
  | JDict items =>
      flat_map (fun kv => find_files_in_dict (snd kv) (parent ++ [fst kv]) list_idx)
               items
  | JList elems =>
      flat_mapi (fun i v => find_files_in_dict v parent (list_idx ++ [i])) 0 elems
  | JStr s =>
      if is_valid s
      then [(Str.join "." parent, s, idx_or_sentinel list_idx)]
      else []
  | _ => []
  end.

End Scanner.

(** ** Runs of the parser *)

(** How a run ended.  [Unmodelled] marks the one place where the embedding
    stops short of the code: a [shardIndex] that is not an integer, which
    Python would carry along in the shard tuple. *)
Inductive outcome : Type :=
| Done
| Raised (e : exn)
| Unmodelled.

(** Modelled from the spec: the graph-storage engine [DAG] of [croo/dag.py]
    is a collaborator outside [cromwell_metadata.py]; the specification has it
    accept node insertions and own their storage and lookup.  A run is therefore the sequence of
    nodes passed to [self._dag.add_node], in order, and the outcome. *)
Definition run : Type := list CMNode * outcome.

Definition done : run := ([], Done).
Definition raised (e : exn) : run := ([], Raised e).
Definition emit (nodes : list CMNode) : run := (nodes, Done).

(** Sequencing: the second run happens only if the first completes. *)
Definition and_then (a b : run) : run :=
  match snd a with
  | Done => (fst a ++ fst b, snd b)
  | _ => a
  end.

(** A [for] loop whose body is a run. *)
Definition for_each {A : Type} (body : A -> run) : list A -> run :=
  fix loop (l : list A) : run :=
    match l with
    | [] => done
    | x :: rest => and_then (body x) (loop rest)
    end.

(** [wf for wf in ... if wf]: [None] and the empty string are both falsy. *)
Definition truthy_entries (chain : list (option string)) : list string :=
  flat_map (fun wf => match wf with
                      | Some s => if String.eqb s "" then [] else [s]
                      | None => []
                      end) chain.

(** [x if x else None] on the result of a scan. *)
Definition tuple_or_none (files : option (list file_triple))
  : option (list file_triple) :=
  match files with
  | Some (t :: ts) => Some (t :: ts)
  | _ => None
  end.

(** The alias read off a key of [calls]: the head of the loop body of
    [__parse_calls], up to the loop over [call_list]. *)
Definition alias_of_call_name (call_name : string) : result (option string) :=
  let split_call_name := Str.split "." call_name in
  if Nat.eqb (length split_call_name) 2 then
    Ok (nth_error split_call_name 1)
  else if Nat.eqb (length split_call_name) 1 then
    if negb (Str.startswith "ScatterAt" call_name) then
      Raise (ValueError "Wrong temporary call name format for a nested subworkflow.")
    else Ok None
  else Raise (ValueError "Wrong call name format. Too many dots.").

Definition msg_parent_workflows : string :=
  "parent_workflows must be defined as non-empty tuple. "
  ++ "If it is a root calling of this function "
  ++ "then call with parent_workflows=(main_workflow_name,).".

Section Parser.

Variable is_valid : string -> bool.

(** The task node of a leaf invocation. *)
Definition task_node (full_call_name : string) (shard_idx : list Z)
           (in_files out_files : option (list file_triple)) : CMNode :=
  {| type := "task";
     shard_idx := shard_idx;
     task_name := Some full_call_name;
     output_name := None;
     output_path := None;
     all_outputs := tuple_or_none out_files;
     all_inputs := tuple_or_none in_files |}.

(** The output node of one triple of [out_files]. *)
Definition output_node (full_call_name : string) (shard_idx : list Z)
           (t : file_triple) : CMNode :=
  {| type := "output";
     shard_idx := shard_idx;
     task_name := Some full_call_name;
     output_name := Some (triple_name t);
     output_path := Some (triple_path t);
     all_outputs := None;
     all_inputs := None |}.

(** The body of the loop over [call_list] for a leaf invocation [c] (no
    ['subWorkflowMetadata']), from [none_free_parent_workflows] on. *)
Definition leaf_nodes (c : list (string * json)) (alias : option string)
           (parent_workflows : list (option string))
           (parent_workflow_shard_indices : list Z) (shard_index : Z)
  : list CMNode :=
  let none_free_parent_workflows := truthy_entries (parent_workflows ++ [alias]) in
  let full_call_name := Str.join "." none_free_parent_workflows in
  let shard_idx := parent_workflow_shard_indices ++ [shard_index] in
  let in_files :=
    match dict_get "inputs" c with
    | Some v => Some (find_files_in_dict is_valid v [] [])
    | None => None
    end in
  let out_files :=
    match dict_get "outputs" c with
    | Some v => Some (find_files_in_dict is_valid v [] [])
    | None => None
    end in
  task_node full_call_name shard_idx in_files out_files
  :: match out_files with
     | Some files => map (output_node full_call_name shard_idx) files
     | None => []
     end.

(** [for c in call_list]: a list is walked; an empty string or mapping is
    walked without a step; any other value fails, either in the loop head
    or at [c['shardIndex']] on a string element. *)
Definition for_each_call (body : json -> run) (call_list : json) : run :=
  match call_list with
  | JList cs => for_each body cs
  | JStr EmptyString => done
  | JDict [] => done
  | _ => raised TypeError
  end.

(** [__parse_calls(calls, parent_workflows, parent_workflow_shard_indices)] *)
Fixpoint parse_calls (calls : json) (parent_workflows : list (option string))
         (parent_workflow_shard_indices : list Z) {struct calls} : run :=
  match parent_workflows with
  | [] => raised (ValueError msg_parent_workflows)
  | _ :: _ =>
      match calls with
      | JDict items =>
          for_each
            (fun kv =>
               match alias_of_call_name (fst kv) with
               | Raise e => raised e
               | Ok subworkflow_or_task_alias =>
                   for_each_call
                     (fun c =>
                        match c with
                        | JDict fields =>
                            match dict_get "shardIndex" fields with
                            | None => raised (KeyError "shardIndex")
                            | Some (JInt shard_idx) =>
                                dict_get_k "subWorkflowMetadata"
                                  (fun sub =>
                                     match sub with
                                     | JDict sub_fields =>
                                         dict_get_k "calls"
                                           (fun sub_calls =>
                                              parse_calls sub_calls
                                                (parent_workflows
                                                   ++ [subworkflow_or_task_alias])
                                                (parent_workflow_shard_indices
                                                   ++ [shard_idx]))
                                           (raised (KeyError "calls"))
                                           sub_fields
                                     | _ => raised TypeError
                                     end)
                                  (emit (leaf_nodes fields subworkflow_or_task_alias
                                           parent_workflows
                                           parent_workflow_shard_indices shard_idx))
                                  fields
                            | Some _ => ([], Unmodelled)
                            end
                        | _ => raised TypeError
                        end)
                     (snd kv)
               end)
            items
      | _ => raised AttributeError
      end
  end.

(** The body of the loop over [call_list] on one invocation record [c],
    with [d[k]] written as a lookup; [parse_calls_unfold] shows that it is
    the body of [parse_calls]. *)
Definition parse_call (c : json) (alias : option string)
           (parent_workflows : list (option string))
           (parent_workflow_shard_indices : list Z) : run :=
  match c with
  | JDict fields =>
      match dict_get "shardIndex" fields with
      | None => raised (KeyError "shardIndex")
      | Some (JInt shard_idx) =>
          match dict_get "subWorkflowMetadata" fields with
          | Some (JDict sub_fields) =>
              match dict_get "calls" sub_fields with
              | Some sub_calls =>
                  parse_calls sub_calls (parent_workflows ++ [alias])
                              (parent_workflow_shard_indices ++ [shard_idx])
              | None => raised (KeyError "calls")
              end
          | Some _ => raised TypeError
          | None =>
              emit (leaf_nodes fields alias parent_workflows
                               parent_workflow_shard_indices shard_idx)
          end
      | Some _ => ([], Unmodelled)
      end
  | _ => raised TypeError
  end.

(** The body of the loop over [calls.items()]. *)
Definition parse_call_list (kv : string * json)
           (parent_workflows : list (option string))
           (parent_workflow_shard_indices : list Z) : run :=
  match alias_of_call_name (fst kv) with
  | Raise e => raised e
  | Ok alias =>
      for_each_call
        (fun c => parse_call c alias parent_workflows parent_workflow_shard_indices)
        (snd kv)
  end.

End Parser.

(** ** The output-definition locator *)

(** What the output-definition lookup reads of the document that
    [WDL.parse_document] returns: [wdl.workflow], which is [None] for a
    source without a workflow, and its [meta] mapping, whose values are taken
    to be strings. *)
Record wdl_workflow : Type := { meta : list (string * string) }.
Record wdl_document : Type := { workflow : option wdl_workflow }.

Fixpoint meta_get (key : string) (m : list (string * string)) : option string :=
  match m with
  | [] => None
  | (k, v) :: rest => if String.eqb k key then Some v else meta_get key rest
  end.

Definition RE_PATTERN_WDL_COMMENT_OUT_DEF_JSON : string :=
  "^\s*\#\s*CROO\s+out_def\s(.+)".

Definition WDL_WORKFLOW_META_OUT_DEF : string := "croo_out_def".

Section Locator.

(** [WDL.parse_document]; it may raise. *)
Variable parse_document : string -> result wdl_document.

(** [re.findall(pattern, line)] for a pattern with one group. *)
Variable re_findall : string -> string -> list string.

(** The body of the [try] block of [__find_workflow_meta]: [Ok None] when
    it falls through to the end of the block. *)
Definition find_workflow_meta_try (wdl_str key : string) : result (option string) :=
  match parse_document wdl_str with
  | Raise e => Raise e
  | Ok wdl =>
      match workflow wdl with
      | None => Raise AttributeError
      | Some wf =>
          match meta_get key (meta wf) with
          | Some v => Ok (Some v)
          | None => Ok None
          end
      end
  end.

(** [__find_workflow_meta(key)]: [except Exception: pass], then
    [return None]. *)
Definition find_workflow_meta (wdl_str key : string) : option string :=
  match find_workflow_meta_try wdl_str key with
  | Ok r => r
  | Raise _ => None
  end.

(** What one line adds to [result] in [__find_val_from_wdl]. *)
Definition val_of_line (regex_val line : string) : list string :=
  match re_findall regex_val line with
  | r0 :: _ =>
      let ret := Str.strip r0 in
      if (0 <? String.length ret)%nat then [ret] else []
  | [] => []
  end.

(** [__find_val_from_wdl(regex_val)] *)
Definition find_val_from_wdl (wdl_str regex_val : string) : list string :=
  flat_map (val_of_line regex_val) (Str.lines wdl_str).

(** [__find_out_def_from_wdl()] *)
Definition find_out_def_from_wdl (wdl_str : string) : option string :=
  match find_workflow_meta wdl_str WDL_WORKFLOW_META_OUT_DEF with
  | Some r => Some r
  | None =>
      match find_val_from_wdl wdl_str RE_PATTERN_WDL_COMMENT_OUT_DEF_JSON with
      | r0 :: _ => Some r0
      | [] => None
      end
  end.

End Locator.

(** ** The graph builder *)

(** The fields of a constructed [CromwellMetadata]; [_dag] is the sequence of
    nodes added to it and [JNull] stands for [None] in [_input_json]. *)
Record CromwellMetadata : Type := {
  _metadata_json : json;
  _input_json : json;
  _wdl_str : option string;
  _out_def_json_file : option string;
  _workflow_id : json;
  _dag : list CMNode
}.

(** The end of a call of the constructor. *)
Inductive construction : Type :=
| Constructed (self : CromwellMetadata)
| Failed (e : exn)
| NotModelled.

(** The node of one triple found in the input JSON. *)
Definition input_node (t : file_triple) : CMNode :=
  {| type := "output";
     shard_idx := triple_idx t;
     task_name := None;
     output_name := Some (triple_name t);
     output_path := Some (triple_path t);
     all_outputs := None;
     all_inputs := None |}.

Section Builder.

Variable is_valid : string -> bool.
Variable parse_document : string -> result wdl_document.
Variable re_findall : string -> string -> list string.

(** [json.loads(s, object_pairs_hook=OrderedDict)] *)
Variable json_loads : string -> result json.

(** [__parse_input_json()]: the nodes it adds. *)
Definition parse_input_json (input_json : json) : list CMNode :=
  match input_json with
  | JNull => []
  | _ => map input_node (find_files_in_dict is_valid input_json [] [])
  end.

(** The first block of [__init__]: [_input_json], [_wdl_str] and
    [_out_def_json_file]. *)
Definition read_submitted_files (top : list (string * json))
  : result (json * option string * option string) :=
  match dict_get "submittedFiles" top with
  | None => Ok (JNull, None, None)
  | Some (JDict submitted) =>
      match dict_get "inputs" submitted with
      | None => Raise (KeyError "inputs")
      | Some (JStr inputs) =>
          match json_loads inputs with
          | Raise e => Raise e
          | Ok input_json =>
              match dict_get "workflow" submitted with
              | None => Raise (KeyError "workflow")
              | Some (JStr wdl_str) =>
                  Ok (input_json, Some wdl_str,
                      find_out_def_from_wdl parse_document re_findall wdl_str)
              | Some _ => Raise AttributeError
              end
          end
      | Some _ => Raise TypeError
      end
  | Some _ => Raise TypeError
  end.

(** [CromwellMetadata(metadata_json)].  A [workflowName] that is neither a
    string nor null is outside the embedding. *)
Definition init (metadata_json : json) : construction :=
  match metadata_json with
  | JDict top =>
      match read_submitted_files top with
      | Raise e => Failed e
      | Ok (input_json, wdl_str, out_def_json_file) =>
          match dict_get "id" top with
          | None => Failed (KeyError "id")
          | Some workflow_id =>
              match dict_get "calls" top with
              | None => Failed (KeyError "calls")
              | Some calls =>
                  match dict_get "workflowName" top with
                  | None => Failed (KeyError "workflowName")
                  | Some name =>
                      match match name with
                            | JStr s => Some (Some s)
                            | JNull => Some None
                            | _ => None
                            end with
                      | None => NotModelled
                      | Some workflow_name =>
                          match parse_calls is_valid calls [workflow_name] [] with
                          | (_, Raised e) => Failed e
                          | (_, Unmodelled) => NotModelled
                          | (nodes, Done) =>
                              Constructed
                                {| _metadata_json := metadata_json;
                                   _input_json := input_json;
                                   _wdl_str := wdl_str;
                                   _out_def_json_file := out_def_json_file;
                                   _workflow_id := workflow_id;
                                   _dag := nodes ++ parse_input_json input_json |}
                          end
                      end
                  end
              end
          end
      end
  | _ => Failed TypeError
  end.

End Builder.

(** ** Vocabulary of the statements *)

(** The entries of an ancestor chain that are not absent. *)
Definition present_entries (chain : list (option string)) : list string :=
  flat_map (fun wf => match wf with Some s => [s] | None => [] end) chain.

Definition nonempty (s : string) : bool := negb (String.eqb s "").

(** The input locators a task node declares. *)
Definition input_locators (n : CMNode) : list string :=
  match all_inputs n with
  | Some triples => map triple_path triples
  | None => []
  end.

(** The string scalars of a document, in the order of a traversal. *)
Fixpoint strings_of (d : json) : list string :=
  match d with
  | JStr s => [s]
  | JList elems => flat_map strings_of elems
  | JDict items => flat_map (fun kv => strings_of (snd kv)) items
  | _ => []
  end.

(** [locates d keys idx s]: the string [s] sits in [d] under the keys [keys]
    and the list positions [idx], both outermost first. *)
Inductive locates : json -> list string -> list Z -> string -> Prop :=
| locates_here (s : string) : locates (JStr s) [] [] s
| locates_key (items : list (string * json)) (k : string) (v : json)
              (keys : list string) (idx : list Z) (s : string) :
    In (k, v) items -> locates v keys idx s ->
    locates (JDict items) (k :: keys) idx s
| locates_pos (elems : list json) (i : nat) (v : json)
              (keys : list string) (idx : list Z) (s : string) :
    nth_error elems i = Some v -> locates v keys idx s ->
    locates (JList elems) keys (Z.of_nat i :: idx) s.

(** The number of constructors of a document. *)
Fixpoint json_size (d : json) : nat :=
  match d with
  | JList elems => S (list_sum (map json_size elems))
  | JDict items => S (list_sum (map (fun kv => json_size (snd kv)) items))
  | _ => 1%nat
  end.

(** Two constructions agree on everything but the output-definition
    reference. *)
Definition same_graph (a b : construction) : Prop :=
  match a, b with
  | Constructed x, Constructed y =>
      _dag x = _dag y /\ _workflow_id x = _workflow_id y
      /\ _input_json x = _input_json y /\ _wdl_str x = _wdl_str y
  | Failed e, Failed e' => e = e'
  | NotModelled, NotModelled => True
  | _, _ => False
  end.

(** ** Collaborators for the examples *)

(** A validator in the place of [AutoURI(d).is_valid]: bucket URIs and
    absolute paths. *)
Definition uri_like (s : string) : bool :=
  String.prefix "gs://" s || String.prefix "s3://" s || String.prefix "/" s.

Module Comment.

Fixpoint skip_spaces (s : string) : string :=
  match s with
  | String c rest => if Str.isspace c then skip_spaces rest else s
  | EmptyString => s
  end.

(** [s] without the literal [lit] at its start. *)
Fixpoint expect (lit s : string) : option string :=
  match lit, s with
  | EmptyString, _ => Some s
  | String a lit', String b s' => if Ascii.eqb a b then expect lit' s' else None
  | String _ _, EmptyString => None
  end.

Definition spaces1 (s : string) : option string :=
  match s with
  | String c rest => if Str.isspace c then Some (skip_spaces rest) else None
  | EmptyString => None
  end.

(** The group of [^\s*\#\s*CROO\s+out_def\s(.+)] on one line of ASCII
    text. *)
Definition out_def_group (line : string) : option string :=
  match expect "#" (skip_spaces line) with
  | None => None
  | Some s1 =>
      match expect "CROO" (skip_spaces s1) with
      | None => None
      | Some s2 =>
          match spaces1 s2 with
          | None => None
          | Some s3 =>
              match expect "out_def" s3 with
              | Some (String c (String g rest)) =>
                  if Str.isspace c then Some (String g rest) else None
              | _ => None
              end
          end
      end
  end.

(** [re.findall] restricted to that pattern. *)
Definition findall (pattern line : string) : list string :=
  if String.eqb pattern RE_PATTERN_WDL_COMMENT_OUT_DEF_JSON then
    match out_def_group line with
    | Some g => [g]
    | None => []
    end
  else [].

End Comment.

(** A source parser that always fails, and one that finds the meta key. *)
Definition failing_parser (_ : string) : result wdl_document :=
  Raise (OtherError "WDL.Error.SyntaxError").

Definition parser_with_meta (v : string) (_ : string) : result wdl_document :=
  Ok {| workflow := Some {| meta := [("description", "demo"); ("croo_out_def", v)] |} |}.

(** A decoder that knows one inputs document. *)
Definition demo_inputs : json :=
  JDict [("wf.fastqs", JList [JStr "gs://b/r1.fq"; JStr "gs://b/r2.fq"]);
         ("wf.genome", JStr "gs://b/hg38.tsv");
         ("wf.threads", JInt 4)].

Definition demo_loads (s : string) : result json :=
  if String.eqb s "demo" then Ok demo_inputs else Raise (OtherError "json.JSONDecodeError").

Definition demo_wdl : string :=
  "version 1.0" ++ String "010" "# CROO out_def gs://b/out_def.json" ++ String "010" "workflow wf {}".

(** Nodes for the examples of the parent predicate. *)
Definition demo_task (name : string) (idx : list Z)
           (ins : option (list file_triple)) : CMNode :=
  {| type := "task"; shard_idx := idx; task_name := Some name;
     output_name := None; output_path := None;
     all_outputs := None; all_inputs := ins |}.

Definition demo_output (owner : option string) (idx : list Z) (path : string) : CMNode :=
  {| type := "output"; shard_idx := idx; task_name := owner;
     output_name := Some "out"; output_path := Some path;
     all_outputs := None; all_inputs := None |}.

(** A scattered sub-workflow call with one leaf task inside. *)
Definition demo_sub_fields : list (string * json) :=
  [("calls", JDict [("sub.align", JList [JDict [("shardIndex", JInt (-1));
                                               ("outputs", JDict [("bam", JStr "gs://b/a.bam")])]])])].

Definition demo_sub_call : list (string * json) :=
  [("shardIndex", JInt 2); ("subWorkflowMetadata", JDict demo_sub_fields)].

(** A call mapping with one leaf task whose inputs hold no locator. *)
Definition demo_leaf_calls : json :=
  JDict [("wf.taskA",
          JList [JDict [("shardIndex", JInt (-1));
                        ("inputs", JDict [("threads", JInt 3)]);
                        ("outputs", JDict [("out1", JStr "gs://b/out1.txt")])]])].

Definition demo_leaf_task : CMNode :=
  {| type := "task"; shard_idx := [-1]; task_name := Some "wf.taskA";
     output_name := None; output_path := None;
     all_outputs := Some [("out1", "gs://b/out1.txt", [-1])]; all_inputs := None |}.

(** A metadata document of a top-level run without calls. *)
Definition demo_submitted : json :=
  JDict [("inputs", JStr "demo"); ("workflow", JStr demo_wdl)].

Definition demo_metadata : json :=
  JDict [("id", JStr "w-1"); ("workflowName", JStr "wf");
         ("submittedFiles", demo_submitted); ("calls", JDict [])].

Definition demo_self : CromwellMetadata :=
  {| _metadata_json := demo_metadata;
     _input_json := demo_inputs;
     _wdl_str := Some demo_wdl;
     _out_def_json_file := Some "gs://b/out_def.json";
     _workflow_id := JStr "w-1";
     _dag := map input_node [("wf.fastqs", "gs://b/r1.fq", [0]);
                             ("wf.fastqs", "gs://b/r2.fq", [1]);
                             ("wf.genome", "gs://b/hg38.tsv", [-1])] |}.

(** ** Accessors and the command line *)

(** [get_workflow_id()], [get_task_graph()], [get_out_def_json_file()] *)
Definition get_workflow_id (self : CromwellMetadata) : json := _workflow_id self.
Definition get_task_graph (self : CromwellMetadata) : list CMNode := _dag self.
Definition get_out_def_json_file (self : CromwellMetadata) : option string :=
  _out_def_json_file self.

(** The end of [main()]: [sys.exit(1)] after the usage line, or the end of
    the constructor call. *)
Inductive main_result : Type :=
| Usage (exit_code : Z)
| Ran (c : construction).

Section Main.

Variable is_valid : string -> bool.
Variable parse_document : string -> result wdl_document.
Variable re_findall : string -> string -> list string.
Variable json_loads : string -> result json.

(** [main()] on [sys.argv]: the constructor receives [sys.argv[1]] itself, a
    string. *)
Definition main (argv : list string) : main_result :=
  if (length argv <? 2)%nat then Usage 1
  else match nth_error argv 1 with
       | Some m_json_file =>
           Ran (init is_valid parse_document re_findall json_loads (JStr m_json_file))
       | None => Usage 1
       end.

End Main.

(** ** Further vocabulary *)

(** [s] holds a dot. *)
Fixpoint contains_dot (s : string) : bool :=
  match s with
  | EmptyString => false
  | String c rest => Ascii.eqb c "." || contains_dot rest
  end.

(** [s] does not start with white space. *)
Definition starts_clean (s : string) : Prop :=
  match s with
  | EmptyString => True
  | String c _ => Str.isspace c = false
  end.

(** [l1] is an initial segment of [l2]. *)
Definition is_prefix {A : Type} (l1 l2 : list A) : Prop := exists l, l2 = l1 ++ l.

(** The two shapes of a node: a task node has a name and no output fields;
    an output node has an output name and a path the validator accepts, and
    no file tuples.  The triples a task node carries hold accepted paths. *)
Definition all_valid (is_valid : string -> bool) (files : option (list file_triple))
  : Prop :=
  forall triples, files = Some triples ->
                  triples <> []
                  /\ Forall (fun t => is_valid (triple_path t) = true) triples.

Definition well_formed_node (is_valid : string -> bool) (n : CMNode) : Prop :=
  (type n = "task"
   /\ output_name n = None /\ output_path n = None
   /\ (exists name, task_name n = Some name)
   /\ all_valid is_valid (all_inputs n) /\ all_valid is_valid (all_outputs n))
  \/ (type n = "output"
      /\ all_inputs n = None /\ all_outputs n = None
      /\ exists name p,
          output_name n = Some name /\ output_path n = Some p /\ is_valid p = true).

(** ** Leaf invocations of a call mapping *)

(** The nodes of a leaf invocation record [fields] under a given full name
    and shard index: the task node, then one output node per triple found in
    ['outputs']. *)
Definition nodes_of_leaf (is_valid : string -> bool) (name : string) (idx : list Z)
           (fields : list (string * json)) : list CMNode :=
  let found (key : string) :=
    match dict_get key fields with
    | Some v => Some (find_files_in_dict is_valid v [] [])
    | None => None
    end in
  {| type := "task"; shard_idx := idx; task_name := Some name;
     output_name := None; output_path := None;
     all_outputs := tuple_or_none (found "outputs");
     all_inputs := tuple_or_none (found "inputs") |}
  :: map (fun t => {| type := "output"; shard_idx := idx; task_name := Some name;
                      output_name := Some (fst (fst t));
                      output_path := Some (snd (fst t));
                      all_outputs := None; all_inputs := None |})
         (match found "outputs" with Some files => files | None => [] end).

(** [leaf_at calls aliases indices fields]: the invocation record [fields]
    is a leaf (it has no ['subWorkflowMetadata']) reached in the call mapping
    [calls] through nested sub-workflow invocations; [aliases] lists, outermost
    first, the alias of each call name on the way and of the leaf's own, and
    [indices] the [shardIndex] of each invocation on the way and of the leaf
    itself. *)
Inductive leaf_at
  : json -> list (option string) -> list Z -> list (string * json) -> Prop :=
| leaf_here (items : list (string * json)) (call_name : string) (cs : list json)
            (alias : option string) (fields : list (string * json)) (s : Z) :
    In (call_name, JList cs) items ->
    alias_of_call_name call_name = Ok alias ->
    In (JDict fields) cs ->
    dict_get "shardIndex" fields = Some (JInt s) ->
    dict_get "subWorkflowMetadata" fields = None ->
    leaf_at (JDict items) [alias] [s] fields
| leaf_below (items : list (string * json)) (call_name : string) (cs : list json)
             (alias : option string) (fields sub_fields : list (string * json))
             (s : Z) (sub_calls : json)
             (aliases : list (option string)) (indices : list Z)
             (leaf : list (string * json)) :
    In (call_name, JList cs) items ->
    alias_of_call_name call_name = Ok alias ->
    In (JDict fields) cs ->
    dict_get "shardIndex" fields = Some (JInt s) ->
    dict_get "subWorkflowMetadata" fields = Some (JDict sub_fields) ->
    dict_get "calls" sub_fields = Some sub_calls ->
    leaf_at sub_calls aliases indices leaf ->
    leaf_at (JDict items) (alias :: aliases) (s :: indices) leaf.

(** The leaf of [demo_sub_fields], and a call mapping with the scattered
    sub-workflow call around it. *)
Definition demo_align_leaf : list (string * json) :=
  [("shardIndex", JInt (-1)); ("outputs", JDict [("bam", JStr "gs://b/a.bam")])].

Definition demo_nested_calls : json :=
  JDict [("wf.sub", JList [JDict demo_sub_call])].

(** * Properties *)

(** ** The parent predicate *)

Lemma list_Z_eqb_eq (a b : list Z) : list_Z_eqb a b = true <-> a = b.
Proof.
  unfold list_Z_eqb. destruct (list_eq_dec Z.eq_dec a b); split; congruence.
Qed.

Lemma opt_string_eqb_eq (a b : option string) : opt_string_eqb a b = true <-> a = b.
Proof.
  destruct a as [x|], b as [y|]; simpl; try (split; congruence).
  rewrite String.eqb_eq. split; congruence.
Qed.

Lemma opt_string_in_spec (x : option string) (l : list string) :
  opt_string_in x l = true <-> exists p, x = Some p /\ In p l.
Proof.
  destruct x as [p|]; simpl.
  - rewrite existsb_exists. split.
    + intros [y [Hin Heq]]. apply String.eqb_eq in Heq. subst y. eauto.
    + intros [q [Hq Hin]]. injection Hq as <-. exists p. split; [assumption|].
      apply String.eqb_refl.
  - split; [discriminate|]. intros [p [Hp _]]. discriminate.
Qed.

Lemma supported_type_false (t : string) :
  supported_type t = false <-> t <> "task" /\ t <> "output".
Proof.
  unfold supported_type. rewrite orb_false_iff, !String.eqb_neq. reflexivity.
Qed.

(** The predicate raises exactly when one of the two types is unsupported. *)
Lemma is_parent_cmnode_raises_iff (n1 n2 : CMNode) :
  (exists e, is_parent_cmnode n1 n2 = Raise e)
  <-> supported_type (type n1) = false \/ supported_type (type n2) = false.
Proof.
  unfold is_parent_cmnode.
  destruct (supported_type (type n1)) eqn:E1, (supported_type (type n2)) eqn:E2; simpl.
  - split.
    + intros [e He].
      destruct (_ && _) in He; [discriminate|].
      destruct (_ && _) in He; discriminate.
    + intros [H|H]; discriminate.
  - split; eauto.
  - split; eauto.
  - split; eauto.
Qed.

(** C1 (as amended): on two nodes of the same variant, two task nodes or two
    output nodes, [is_parent_cmnode] returns [False] and does not raise; it
    raises only when the type of one of the two nodes is neither ['task'] nor
    ['output']. *)
Theorem is_parent_cmnode_same_variant (n1 n2 : CMNode) :
  (type n1 = type n2 -> type n1 = "task" \/ type n1 = "output" ->
   is_parent_cmnode n1 n2 = Ok false)
  /\ ((exists e, is_parent_cmnode n1 n2 = Raise e)
      <-> (type n1 <> "task" /\ type n1 <> "output")
          \/ (type n2 <> "task" /\ type n2 <> "output")).
Proof.
  split.
  - intros Hsame Hvariant. unfold is_parent_cmnode. rewrite <- Hsame.
    destruct Hvariant as [-> | ->]; reflexivity.
  - rewrite is_parent_cmnode_raises_iff, !supported_type_false. reflexivity.
Qed.

Lemma is_parent_cmnode_same_variant_witness :
  is_parent_cmnode (demo_task "wf.a" [-1] None) (demo_task "wf.b" [-1] None) = Ok false.
Proof.
  apply (is_parent_cmnode_same_variant (demo_task "wf.a" [-1] None)
                                       (demo_task "wf.b" [-1] None));
    [reflexivity | left; reflexivity].
Defined.

(** C1 (as stated) fails: two task nodes, and two output nodes, are answered
    with [False] instead of an error. *)
Lemma is_parent_cmnode_same_variant_no_raise :
  is_parent_cmnode (demo_task "wf.a" [-1] None) (demo_task "wf.a" [-1] None) = Ok false
  /\ is_parent_cmnode (demo_output (Some "wf.a") [-1] "gs://b/x")
                      (demo_output (Some "wf.a") [-1] "gs://b/y") = Ok false.
Proof. split; reflexivity. Qed.

(** C2: on a task node [T] and an output node [O] the predicate returns, and
    [(T, O)] holds iff name and shard index agree, [(O, T)] iff the path of
    [O] is among the input locators of [T]. *)
Theorem is_parent_cmnode_task_output (T O : CMNode)
        (HT : type T = "task") (HO : type O = "output") :
  (exists b, is_parent_cmnode T O = Ok b
             /\ (b = true <-> task_name T = task_name O /\ shard_idx T = shard_idx O))
  /\ (exists b, is_parent_cmnode O T = Ok b
                /\ (b = true <-> exists p, output_path O = Some p
                                          /\ In p (input_locators T))).
Proof.
  unfold is_parent_cmnode, input_locators. rewrite HT, HO. simpl. split.
  - eexists. split; [reflexivity|].
    rewrite andb_true_iff, opt_string_eqb_eq, list_Z_eqb_eq. reflexivity.
  - eexists. split; [reflexivity|].
    destruct (all_inputs T) as [triples|].
    + apply opt_string_in_spec.
    + split; [discriminate|]. intros [p [_ []]].
Qed.

Lemma is_parent_cmnode_task_output_witness :
  (exists b, is_parent_cmnode (demo_task "wf.a" [0] (Some [("x", "gs://b/x", [-1])]))
                              (demo_output (Some "wf.a") [0] "gs://b/x") = Ok b
             /\ (b = true <->
                 task_name (demo_task "wf.a" [0] (Some [("x", "gs://b/x", [-1])]))
                 = task_name (demo_output (Some "wf.a") [0] "gs://b/x")
                 /\ shard_idx (demo_task "wf.a" [0] (Some [("x", "gs://b/x", [-1])]))
                    = shard_idx (demo_output (Some "wf.a") [0] "gs://b/x")))
  /\ (exists b, is_parent_cmnode (demo_output (Some "wf.a") [0] "gs://b/x")
                                 (demo_task "wf.a" [0] (Some [("x", "gs://b/x", [-1])]))
                = Ok b
                /\ (b = true <->
                    exists p, output_path (demo_output (Some "wf.a") [0] "gs://b/x") = Some p
                              /\ In p (input_locators
                                         (demo_task "wf.a" [0]
                                                    (Some [("x", "gs://b/x", [-1])]))))).
Proof.
  apply is_parent_cmnode_task_output; reflexivity.
Defined.

(** ** Induction on documents *)

Lemma json_size_elem (elems : list json) (v : json) :
  In v elems -> (json_size v < json_size (JList elems))%nat.
Proof.
  simpl. induction elems as [|a l IH]; simpl; [contradiction|].
  intros [<- | Hin]; [lia|]. specialize (IH Hin). lia.
Qed.

Lemma json_size_item (items : list (string * json)) (k : string) (v : json) :
  In (k, v) items -> (json_size v < json_size (JDict items))%nat.
Proof.
  simpl. induction items as [|[k' v'] l IH]; simpl; [contradiction|].
  intros [Heq | Hin]; [injection Heq as _ <-; lia|]. specialize (IH Hin). lia.
Qed.

Lemma json_size_induction (P : json -> Prop) :
  (forall d, (forall d', (json_size d' < json_size d)%nat -> P d') -> P d) ->
  forall d, P d.
Proof.
  intros step d.
  assert (H : forall n d, (json_size d < n)%nat -> P d).
  { induction n as [|n IH]; intros d' Hlt; [lia|].
    apply step. intros d'' Hlt'. apply IH. lia. }
  apply (H (S (json_size d))). lia.
Qed.

Lemma dict_get_In (key : string) (items : list (string * json)) (v : json) :
  dict_get key items = Some v -> In (key, v) items.
Proof.
  induction items as [|[k v'] l IH]; simpl; [discriminate|].
  destruct (String.eqb k key) eqn:E.
  - intros [= <-]. apply String.eqb_eq in E. subst. now left.
  - intros H. right. now apply IH.
Qed.

Lemma dict_get_k_eq {A : Type} (key : string) (found : json -> A) (missing : A)
      (items : list (string * json)) :
  dict_get_k key found missing items
  = match dict_get key items with Some v => found v | None => missing end.
Proof.
  induction items as [|[k v] l IH]; simpl; [reflexivity|].
  destruct (String.eqb k key); [reflexivity | exact IH].
Qed.

(** ** The scanner *)

Lemma in_flat_mapi {A B : Type} (f : Z -> A -> list B) (l : list A) (i0 : Z) (t : B) :
  In t (flat_mapi f i0 l)
  <-> exists n v, nth_error l n = Some v /\ In t (f (i0 + Z.of_nat n) v).
Proof.
  revert i0. induction l as [|a l IH]; intros i0; simpl.
  - split; [contradiction|]. intros [[|n] [v [H _]]]; discriminate.
  - rewrite in_app_iff, IH. split.
    + intros [H | [n [v [Hn Hin]]]].
      * exists 0%nat, a. split; [reflexivity|]. now rewrite Z.add_0_r.
      * exists (S n), v. split; [exact Hn|].
        replace (i0 + Z.of_nat (S n)) with (i0 + 1 + Z.of_nat n) by lia. exact Hin.
    + intros [[|n] [v [Hn Hin]]]; simpl in Hn.
      * injection Hn as <-. left. now rewrite Z.add_0_r in Hin.
      * right. exists n, v. split; [exact Hn|].
        replace (i0 + 1 + Z.of_nat n) with (i0 + Z.of_nat (S n)) by lia. exact Hin.
Qed.

Lemma idx_or_sentinel_nonempty (idx : list Z) : idx_or_sentinel idx <> [].
Proof. destruct idx; simpl; discriminate. Qed.

Section ScannerFacts.

Variable is_valid : string -> bool.

Local Abbreviation scan := (find_files_in_dict is_valid).

(** A triple is found exactly for a qualifying string of the document; its
    field path joins the keys above it and its index lists the positions
    above it. *)
Lemma find_files_in_dict_In (d : json) :
  forall (parent : list string) (list_idx : list Z) (t : file_triple),
    In t (scan d parent list_idx)
    <-> exists keys idx s,
        locates d keys idx s /\ is_valid s = true
        /\ t = (Str.join "." (parent ++ keys), s, idx_or_sentinel (list_idx ++ idx)).
Proof.
  induction d as [d IH] using json_size_induction.
  intros parent list_idx t. destruct d as [| b | z | s | elems | items]; simpl.
  1-3: split; [contradiction | intros (keys & idx & s & Hl & _); inversion Hl].
  - split.
    + destruct (is_valid s) eqn:Hv; [|contradiction].
      intros [<- | []]. exists [], [], s. rewrite !app_nil_r.
      repeat split; [constructor | assumption].
    + intros (keys & idx & s' & Hl & Hv & ->). inversion Hl; subst.
      rewrite Hv, !app_nil_r. now left.
  - rewrite in_flat_mapi. split.
    + intros (n & v & Hn & Hin). simpl in Hin.
      apply IH in Hin; [|eapply json_size_elem, nth_error_In; eassumption].
      destruct Hin as (keys & idx & s & Hl & Hv & ->).
      exists keys, (Z.of_nat n :: idx), s. rewrite <- app_assoc.
      repeat split; [econstructor; eassumption | assumption].
    + intros (keys & idx & s & Hl & Hv & ->). inversion Hl; subst.
      exists i, v. split; [assumption|]. simpl.
      apply IH; [eapply json_size_elem, nth_error_In; eassumption|].
      exists keys, idx0, s. rewrite <- app_assoc. repeat split; assumption.
  - rewrite in_flat_map. split.
    + intros ([k v] & Hkv & Hin). simpl in Hin.
      apply IH in Hin; [|eapply json_size_item; eassumption].
      destruct Hin as (keys & idx & s & Hl & Hv & ->).
      exists (k :: keys), idx, s. rewrite <- app_assoc.
      repeat split; [econstructor; eassumption | assumption].
    + intros (keys & idx & s & Hl & Hv & ->). inversion Hl; subst.
      exists (k, v). split; [assumption|]. simpl.
      apply IH; [eapply json_size_item; eassumption|].
      exists keys0, idx, s. rewrite <- app_assoc. repeat split; assumption.
Qed.

(** The locators found are the qualifying strings, one triple each, in
    the order of the traversal. *)
Lemma find_files_in_dict_paths (d : json) :
  forall (parent : list string) (list_idx : list Z),
    map triple_path (scan d parent list_idx) = filter is_valid (strings_of d).
Proof.
  induction d as [d IH] using json_size_induction.
  intros parent list_idx. destruct d as [| b | z | s | elems | items]; simpl;
    try reflexivity.
  - destruct (is_valid s); reflexivity.
  - assert (H : forall l i, (forall v, In v l -> In v elems) ->
                map triple_path
                    (flat_mapi (fun i v => scan v parent (list_idx ++ [i])) i l)
                = filter is_valid (flat_map strings_of l)).
    { induction l as [|a l IHl]; intros i Hsub; simpl; [reflexivity|].
      rewrite map_app, filter_app, IHl by (intros; apply Hsub; now right).
      rewrite IH; [reflexivity|]. apply json_size_elem, Hsub. now left. }
    apply H. auto.
  - assert (H : forall l, (forall kv, In kv l -> In kv items) ->
                map triple_path
                    (flat_map (fun kv => scan (snd kv) (parent ++ [fst kv]) list_idx) l)
                = filter is_valid (flat_map (fun kv => strings_of (snd kv)) l)).
    { induction l as [|[k v] l IHl]; intros Hsub; simpl; [reflexivity|].
      rewrite map_app, filter_app, IHl by (intros; apply Hsub; now right).
      rewrite IH; [reflexivity|]. apply (json_size_item items k), Hsub. now left. }
    apply H. auto.
Qed.

(** The list index of a triple is never empty. *)
Lemma find_files_in_dict_idx (d : json) (parent : list string) (list_idx : list Z)
      (t : file_triple) :
  In t (scan d parent list_idx) -> triple_idx t <> [].
Proof.
  intros Hin. apply find_files_in_dict_In in Hin.
  destruct Hin as (keys & idx & s & _ & _ & ->). apply idx_or_sentinel_nonempty.
Qed.

End ScannerFacts.

(** C5: the scanner follows mappings by extending the field path and
    sequences by extending the list index; it returns one triple per
    qualifying string, placed at the keys and positions above that string,
    with the sentinel index outside any sequence; empty structures give
    nothing, and the example of the specification gives its one triple. *)
Theorem find_files_in_dict_spec (is_valid : string -> bool) :
  (forall items parent list_idx,
      find_files_in_dict is_valid (JDict items) parent list_idx
      = flat_map (fun kv => find_files_in_dict is_valid (snd kv)
                                               (parent ++ [fst kv]) list_idx) items)
  /\ (forall elems parent list_idx,
         find_files_in_dict is_valid (JList elems) parent list_idx
         = flat_mapi (fun i v => find_files_in_dict is_valid v parent (list_idx ++ [i]))
                     0 elems)
  /\ (forall s parent list_idx,
         find_files_in_dict is_valid (JStr s) parent list_idx
         = if is_valid s
           then [(Str.join "." parent, s,
                  match list_idx with [] => [-1] | _ => list_idx end)]
           else [])
  /\ (forall d parent list_idx,
         map triple_path (find_files_in_dict is_valid d parent list_idx)
         = filter is_valid (strings_of d))
  /\ (forall d parent list_idx t,
         In t (find_files_in_dict is_valid d parent list_idx)
         <-> exists keys idx s,
             locates d keys idx s /\ is_valid s = true
             /\ t = (Str.join "." (parent ++ keys), s,
                     match list_idx ++ idx with [] => [-1] | l => l end))
  /\ find_files_in_dict is_valid (JDict []) [] [] = []
  /\ find_files_in_dict is_valid (JList []) [] [] = []
  /\ (forall L1,
         is_valid L1 = true -> is_valid "not-a-locator" = false ->
         find_files_in_dict is_valid
           (JDict [("a", JDict [("b", JList [JStr L1; JStr "not-a-locator"])])]) [] []
         = [("a.b", L1, [0])]).
Proof.
  repeat split; try reflexivity.
  - apply find_files_in_dict_paths.
  - intros H. apply find_files_in_dict_In in H.
    destruct H as (keys & idx & s & Hl & Hv & ->).
    exists keys, idx, s. repeat split; try assumption.
    unfold idx_or_sentinel. destruct (list_idx ++ idx); reflexivity.
  - intros (keys & idx & s & Hl & Hv & ->). apply find_files_in_dict_In.
    exists keys, idx, s. repeat split; try assumption.
    unfold idx_or_sentinel. destruct (list_idx ++ idx); reflexivity.
  - intros L1 HL1 Hnot. simpl. rewrite HL1, Hnot. reflexivity.
Qed.

Lemma find_files_in_dict_spec_witness :
  find_files_in_dict uri_like
    (JDict [("a", JDict [("b", JList [JStr "gs://b/L1"; JStr "not-a-locator"])])]) [] []
  = [("a.b", "gs://b/L1", [0])].
Proof.
  apply (find_files_in_dict_spec uri_like); reflexivity.
Defined.

(** ** Runs *)

Lemma and_then_done_r (a : run) : and_then a done = a.
Proof.
  destruct a as [nodes o]. unfold and_then; simpl.
  destruct o; try reflexivity. now rewrite app_nil_r.
Qed.

Lemma and_then_assoc (a b c : run) :
  and_then (and_then a b) c = and_then a (and_then b c).
Proof.
  destruct a as [na oa], b as [nb ob], c as [nc oc]. unfold and_then; simpl.
  destruct oa; simpl; try reflexivity.
  destruct ob; simpl; try reflexivity. now rewrite app_assoc.
Qed.

Lemma for_each_ext {A : Type} (f g : A -> run) (l : list A) :
  (forall x, In x l -> f x = g x) -> for_each f l = for_each g l.
Proof.
  induction l as [|a l IH]; intros H; simpl; [reflexivity|].
  rewrite (H a) by now left. rewrite IH; [reflexivity|].
  intros x Hx. apply H. now right.
Qed.

Lemma for_each_app {A : Type} (f : A -> run) (l1 l2 : list A) :
  for_each f (l1 ++ l2) = and_then (for_each f l1) (for_each f l2).
Proof.
  induction l1 as [|a l IH]; simpl.
  - unfold and_then, done; simpl. now destruct (for_each f l2).
  - rewrite IH. symmetry. apply and_then_assoc.
Qed.

Lemma for_each_Forall {A : Type} (Q : CMNode -> Prop) (f : A -> run) (l : list A) :
  (forall x, In x l -> Forall Q (fst (f x))) -> Forall Q (fst (for_each f l)).
Proof.
  induction l as [|a l IH]; intros H; simpl; [constructor|].
  unfold and_then. assert (Ha := H a (or_introl eq_refl)).
  destruct (snd (f a)); simpl; try assumption.
  apply Forall_app. split; [assumption|]. apply IH. intros x Hx. apply H. now right.
Qed.

(** ** The call-tree parser *)

Section ParserFacts.

Variable is_valid : string -> bool.

(** [parse_calls] on a mapping is the loop over its items with
    [parse_call_list] as body. *)
Lemma parse_calls_unfold (items : list (string * json)) (p : option string)
      (ps : list (option string)) (shards : list Z) :
  parse_calls is_valid (JDict items) (p :: ps) shards
  = for_each (fun kv => parse_call_list is_valid kv (p :: ps) shards) items.
Proof.
  cbn [parse_calls]. apply for_each_ext. intros kv _. unfold parse_call_list.
  destruct (alias_of_call_name (fst kv)) as [alias|e]; [|reflexivity].
  destruct (snd kv) as [| b | z | s | cs | its]; try reflexivity.
  simpl. apply for_each_ext. intros c _. unfold parse_call.
  destruct c as [| b | z | s | elems | fields]; try reflexivity.
  destruct (dict_get "shardIndex" fields) as [[| b | z | s | elems | its]|];
    try reflexivity.
  rewrite dict_get_k_eq.
  destruct (dict_get "subWorkflowMetadata" fields) as [[| b | z' | s | elems | sf]|];
    try reflexivity.
  now rewrite dict_get_k_eq.
Qed.

Lemma parse_calls_no_parents (calls : json) (shards : list Z) :
  parse_calls is_valid calls [] shards = raised (ValueError msg_parent_workflows).
Proof. destruct calls; reflexivity. Qed.

(** A property of the nodes of every leaf invocation is a property of every
    node of a run. *)
Lemma parse_calls_Forall (Q : CMNode -> Prop) :
  (forall fields alias parents shards s,
      Forall Q (leaf_nodes is_valid fields alias parents shards s)) ->
  forall calls parents shards, Forall Q (fst (parse_calls is_valid calls parents shards)).
Proof.
  intros Hleaf calls.
  induction calls as [calls IH] using json_size_induction.
  intros [|p ps] shards; [rewrite parse_calls_no_parents; constructor|].
  destruct calls as [| b | z | s | elems | items]; try constructor.
  rewrite parse_calls_unfold. apply for_each_Forall. intros [k cl] Hkv.
  unfold parse_call_list. simpl fst; simpl snd.
  destruct (alias_of_call_name k) as [alias|e]; [|constructor].
  assert (Hcl := json_size_item _ _ _ Hkv).
  destruct cl as [| b | z | s | cs | its]; try constructor.
  - destruct s; constructor.
  - simpl. apply for_each_Forall. intros c Hc.
    assert (Hcs := json_size_elem _ _ Hc).
    unfold parse_call.
    destruct c as [| b | z | s | elems | fields]; try constructor.
    destruct (dict_get "shardIndex" fields) as [[| b | z | s | elems | its]|];
      try constructor.
    destruct (dict_get "subWorkflowMetadata" fields)
      as [[| b | z' | s | elems | sf]|] eqn:Esub; try solve [constructor].
    + destruct (dict_get "calls" sf) as [sc|] eqn:Ecalls; [|constructor].
      apply IH.
      assert (H1 := json_size_item _ _ _ (dict_get_In _ _ _ Esub)).
      assert (H2 := json_size_item _ _ _ (dict_get_In _ _ _ Ecalls)).
      lia.
    + apply Hleaf.
  - destruct its; constructor.
Qed.

End ParserFacts.

Lemma split_nonempty (sep : ascii) (s : string) : (1 <= length (Str.split sep s))%nat.
Proof.
  induction s as [|c s IH]; simpl; [lia|].
  destruct (Ascii.eqb c sep); simpl; [lia|].
  destruct (Str.split sep s); simpl; lia.
Qed.

Lemma and_then_raised_snd (a : run) (e : exn) : snd (and_then a (raised e)) <> Done.
Proof.
  destruct a as [nodes o]. unfold and_then; simpl. destruct o; simpl; discriminate.
Qed.

(** The entries kept by the truth test are the present, non-empty ones. *)
Lemma truthy_entries_filter (chain : list (option string)) :
  truthy_entries chain = filter nonempty (present_entries chain).
Proof.
  induction chain as [|[s|] l IH]; simpl; [reflexivity| |exact IH].
  unfold nonempty at 1. destruct (String.eqb s ""); simpl; now rewrite IH.
Qed.

(** A leaf invocation emits the nodes of [leaf_nodes]. *)
Lemma parse_call_leaf_eq (is_valid : string -> bool) (fields : list (string * json))
      (alias : option string) (parents : list (option string)) (shards : list Z) (s : Z) :
  dict_get "shardIndex" fields = Some (JInt s) ->
  dict_get "subWorkflowMetadata" fields = None ->
  parse_call is_valid (JDict fields) alias parents shards
  = emit (leaf_nodes is_valid fields alias parents shards s).
Proof. intros Hidx Hleaf. unfold parse_call. now rewrite Hidx, Hleaf. Qed.

(** C4 (as amended): a leaf invocation emits one task node, named by the
    dot-join of the present and non-empty entries of the ancestor chain
    followed by the alias, with the ancestor shard indices followed by its own
    shard index, and then one output node per triple the scanner finds in
    ['outputs'], each with the name and shard index of the task, the field
    path as [output_name] and the locator as [output_path]; the example of
    the specification gives its two nodes. *)
Theorem parse_call_leaf (is_valid : string -> bool) :
  (forall fields alias parents shards s,
      dict_get "shardIndex" fields = Some (JInt s) ->
      dict_get "subWorkflowMetadata" fields = None ->
      let name := Str.join "." (filter nonempty (present_entries (parents ++ [alias]))) in
      let idx := shards ++ [s] in
      let found :=
        match dict_get "outputs" fields with
        | Some v => find_files_in_dict is_valid v [] []
        | None => []
        end in
      exists task,
        parse_call is_valid (JDict fields) alias parents shards
        = (task :: map (fun t => {| type := "output";
                                    shard_idx := idx;
                                    task_name := Some name;
                                    output_name := Some (fst (fst t));
                                    output_path := Some (snd (fst t));
                                    all_outputs := None;
                                    all_inputs := None |}) found,
           Done)
        /\ type task = "task" /\ task_name task = Some name /\ shard_idx task = idx)
  /\ (forall P,
         is_valid P = true ->
         parse_calls is_valid
           (JDict [("wf.taskA", JList [JDict [("shardIndex", JInt (-1));
                                              ("outputs", JDict [("out1", JStr P)])]])])
           [Some "wf"] []
         = ([ {| type := "task"; shard_idx := [-1]; task_name := Some "wf.taskA";
                 output_name := None; output_path := None;
                 all_outputs := Some [("out1", P, [-1])]; all_inputs := None |};
              {| type := "output"; shard_idx := [-1]; task_name := Some "wf.taskA";
                 output_name := Some "out1"; output_path := Some P;
                 all_outputs := None; all_inputs := None |} ],
            Done)).
Proof.
  split.
  - intros fields alias parents shards s Hidx Hleaf name idx found.
    rewrite (parse_call_leaf_eq _ _ _ _ _ _ Hidx Hleaf).
    unfold emit, leaf_nodes. rewrite truthy_entries_filter. fold name idx.
    eexists. split.
    + f_equal. f_equal. subst found.
      destruct (dict_get "outputs" fields); reflexivity.
    + repeat split.
  - intros P HP. rewrite parse_calls_unfold. cbn. rewrite HP. reflexivity.
Qed.

Lemma parse_call_leaf_witness :
  parse_calls uri_like
    (JDict [("wf.taskA", JList [JDict [("shardIndex", JInt (-1));
                                       ("outputs", JDict [("out1", JStr "gs://b/out1.txt")])]])])
    [Some "wf"] []
  = ([ {| type := "task"; shard_idx := [-1]; task_name := Some "wf.taskA";
          output_name := None; output_path := None;
          all_outputs := Some [("out1", "gs://b/out1.txt", [-1])]; all_inputs := None |};
       {| type := "output"; shard_idx := [-1]; task_name := Some "wf.taskA";
          output_name := Some "out1"; output_path := Some "gs://b/out1.txt";
          all_outputs := None; all_inputs := None |} ],
     Done).
Proof.
  apply (proj2 (parse_call_leaf uri_like) "gs://b/out1.txt"). reflexivity.
Defined.

(** C4 (as stated) fails on an empty entry: under the ancestor chain [("wf",)]
    the call identifier ["wf."] has the alias [""], which is present; the
    task is named ["wf"], the dot-join of the present entries is ["wf."]. *)
Lemma parse_call_leaf_empty_alias :
  alias_of_call_name "wf." = Ok (Some "")
  /\ map task_name
         (fst (parse_calls uri_like
                 (JDict [("wf.", JList [JDict [("shardIndex", JInt (-1))]])])
                 [Some "wf"] []))
     = [Some "wf"]
  /\ Str.join "." (present_entries ([Some "wf"] ++ [Some ""])) = "wf."
  /\ Some "wf" <> Some (Str.join "." (present_entries ([Some "wf"] ++ [Some ""]))).
Proof. repeat split. discriminate. Qed.

(** C7: a call identifier of three or more dot-segments is refused with a
    [ValueError], and so is a one-segment identifier that does not start with
    ['ScatterAt']; two segments are accepted with the second as alias, one
    segment starting with ['ScatterAt'] is accepted without an alias.  In
    [parse_calls] a refused identifier ends the run with that error as soon
    as the loop reaches it. *)
Theorem alias_of_call_name_segments (is_valid : string -> bool) (call_name : string) :
  let segments := Str.split "." call_name in
  (1 <= length segments)%nat
  /\ ((3 <= length segments)%nat ->
      alias_of_call_name call_name
      = Raise (ValueError "Wrong call name format. Too many dots."))
  /\ (length segments = 1%nat -> Str.startswith "ScatterAt" call_name = false ->
      alias_of_call_name call_name
      = Raise (ValueError "Wrong temporary call name format for a nested subworkflow."))
  /\ (length segments = 2%nat ->
      exists owner alias,
        segments = [owner; alias] /\ alias_of_call_name call_name = Ok (Some alias))
  /\ (length segments = 1%nat -> Str.startswith "ScatterAt" call_name = true ->
      alias_of_call_name call_name = Ok None)
  /\ (forall e,
         alias_of_call_name call_name = Raise e ->
         forall before call_list after p ps shards,
           parse_calls is_valid (JDict (before ++ (call_name, call_list) :: after))
                       (p :: ps) shards
           = and_then (parse_calls is_valid (JDict before) (p :: ps) shards) (raised e)
           /\ snd (parse_calls is_valid (JDict (before ++ (call_name, call_list) :: after))
                               (p :: ps) shards) <> Done)
  /\ (forall alias,
         alias_of_call_name call_name = Ok alias ->
         forall p ps shards,
           parse_calls is_valid (JDict [(call_name, JList [])]) (p :: ps) shards = done).
Proof.
  intros segments. unfold alias_of_call_name. fold segments.
  assert (Hne := split_nonempty "." call_name). fold segments in Hne.
  repeat split.
  - exact Hne.
  - intros H. destruct segments as [|a [|b [|c l]]]; simpl in *; try lia. reflexivity.
  - intros H Hs. rewrite H, Hs. reflexivity.
  - intros H. destruct segments as [|a [|b [|c l]]]; simpl in *; try lia.
    exists a, b. split; reflexivity.
  - intros H Hs. rewrite H, Hs. reflexivity.
  - rewrite !parse_calls_unfold, for_each_app. simpl.
    unfold parse_call_list at 2. simpl fst. unfold alias_of_call_name. fold segments.
    rewrite H. reflexivity.
  - rewrite parse_calls_unfold, for_each_app. simpl.
    unfold parse_call_list at 2. simpl fst. unfold alias_of_call_name. fold segments.
    rewrite H. simpl.
    match goal with |- snd (and_then ?a _) <> _ => apply (and_then_raised_snd a e) end.
  - intros alias H p ps shards. rewrite parse_calls_unfold. simpl.
    unfold parse_call_list. simpl fst. unfold alias_of_call_name. fold segments.
    rewrite H. reflexivity.
Qed.

Lemma alias_of_call_name_segments_witness :
  alias_of_call_name "wf.sub.task"
  = Raise (ValueError "Wrong call name format. Too many dots.").
Proof.
  apply (alias_of_call_name_segments uri_like "wf.sub.task"). vm_compute. lia.
Defined.

(** C10: the [all_inputs] and [all_outputs] of a task node are [None] or a
    non-empty tuple, for every task node of every run; a missing key and a
    block without qualifying locators both give [None], and a task with
    [all_outputs = None] is followed by no output node. *)
Theorem task_files_none_or_nonempty (is_valid : string -> bool) :
  (forall calls parents shards n,
      In n (fst (parse_calls is_valid calls parents shards)) ->
      type n = "task" ->
      all_inputs n <> Some [] /\ all_outputs n <> Some [])
  /\ (forall fields alias parents shards s,
         dict_get "shardIndex" fields = Some (JInt s) ->
         dict_get "subWorkflowMetadata" fields = None ->
         exists task outs,
           parse_call is_valid (JDict fields) alias parents shards = (task :: outs, Done)
           /\ type task = "task"
           /\ Forall (fun n => type n = "output") outs
           /\ (dict_get "inputs" fields = None -> all_inputs task = None)
           /\ (forall v, dict_get "inputs" fields = Some v ->
                         find_files_in_dict is_valid v [] [] = [] ->
                         all_inputs task = None)
           /\ (dict_get "outputs" fields = None -> all_outputs task = None)
           /\ (forall v, dict_get "outputs" fields = Some v ->
                         find_files_in_dict is_valid v [] [] = [] ->
                         all_outputs task = None)
           /\ (all_outputs task = None -> outs = [])).
Proof.
  split.
  - intros calls parents shards n Hin Htype.
    assert (H : Forall (fun n => type n = "task" ->
                                 all_inputs n <> Some [] /\ all_outputs n <> Some [])
                       (fst (parse_calls is_valid calls parents shards))).
    { apply parse_calls_Forall. intros fields alias ps sh s. unfold leaf_nodes.
      constructor.
      - intros _. simpl. split.
        + destruct (dict_get "inputs" fields) as [v|]; simpl; [|discriminate].
          destruct (find_files_in_dict is_valid v [] []); discriminate.
        + destruct (dict_get "outputs" fields) as [v|]; simpl; [|discriminate].
          destruct (find_files_in_dict is_valid v [] []); discriminate.
      - destruct (dict_get "outputs" fields) as [v|]; [|constructor].
        apply Forall_forall. intros x Hx. apply in_map_iff in Hx.
        destruct Hx as [t [<- _]]. simpl. discriminate. }
    rewrite Forall_forall in H. exact (H n Hin Htype).
  - intros fields alias parents shards s Hidx Hleaf.
    rewrite (parse_call_leaf_eq _ _ _ _ _ _ Hidx Hleaf). unfold emit, leaf_nodes.
    eexists. eexists. split; [reflexivity|]. simpl.
    split; [reflexivity|]. split.
    { destruct (dict_get "outputs" fields) as [v|]; [|constructor].
      apply Forall_forall. intros x Hx. apply in_map_iff in Hx.
      destruct Hx as [t [<- _]]. reflexivity. }
    split; [intros ->; reflexivity|].
    split; [intros v -> ->; reflexivity|].
    split; [intros ->; reflexivity|].
    split; [intros v -> ->; reflexivity|].
    destruct (dict_get "outputs" fields) as [v|]; [|reflexivity].
    destruct (find_files_in_dict is_valid v [] []); [reflexivity | discriminate].
Qed.

Lemma task_files_none_or_nonempty_witness :
  all_inputs demo_leaf_task <> Some [] /\ all_outputs demo_leaf_task <> Some [].
Proof.
  apply (proj1 (task_files_none_or_nonempty uri_like)
               demo_leaf_calls [Some "wf"] [] demo_leaf_task).
  - vm_compute. left. reflexivity.
  - reflexivity.
Defined.

(** ** The graph builder *)

Section BuilderFacts.

Variable is_valid : string -> bool.
Variable re_findall : string -> string -> list string.
Variable json_loads : string -> result json.

Lemma parse_input_json_eq (input_json : json) :
  parse_input_json is_valid input_json
  = map input_node (find_files_in_dict is_valid input_json [] []).
Proof. destruct input_json; reflexivity. Qed.

(** The source parser only reaches the output-definition reference. *)
Lemma read_submitted_files_parser (pd pd' : string -> result wdl_document)
      (top : list (string * json)) :
  match read_submitted_files pd re_findall json_loads top,
        read_submitted_files pd' re_findall json_loads top with
  | Ok (i, w, _), Ok (i', w', _) => i = i' /\ w = w'
  | Raise e, Raise e' => e = e'
  | _, _ => False
  end.
Proof.
  unfold read_submitted_files.
  destruct (dict_get "submittedFiles" top) as [[| b | z | s | elems | submitted]|];
    try reflexivity; [|split; reflexivity].
  destruct (dict_get "inputs" submitted) as [[| b | z | s | elems | its]|];
    try reflexivity.
  destruct (json_loads s) as [input_json|e]; [|reflexivity].
  destruct (dict_get "workflow" submitted) as [[| b | z | w | elems | its]|];
    try reflexivity.
  split; reflexivity.
Qed.

Lemma init_parser (pd pd' : string -> result wdl_document) (metadata_json : json) :
  same_graph (init is_valid pd re_findall json_loads metadata_json)
             (init is_valid pd' re_findall json_loads metadata_json).
Proof.
  unfold init. destruct metadata_json as [| b | z | s | elems | top]; try reflexivity.
  assert (H := read_submitted_files_parser pd pd' top).
  destruct (read_submitted_files pd re_findall json_loads top) as [[[i w] o]|e],
           (read_submitted_files pd' re_findall json_loads top) as [[[i' w'] o']|e'];
    try contradiction; [|exact H].
  destruct H as [<- <-].
  destruct (dict_get "id" top) as [workflow_id|]; [|reflexivity].
  destruct (dict_get "calls" top) as [calls|]; [|reflexivity].
  destruct (dict_get "workflowName" top) as [[| b | z | s | elems | its]|];
    try reflexivity.
  - destruct (parse_calls is_valid calls [None] []) as [nodes [|e|]]; simpl; auto.
  - destruct (parse_calls is_valid calls [Some s] []) as [nodes [|e|]]; simpl; auto.
Qed.

End BuilderFacts.

(** C6 (as amended): when the metadata carries ['submittedFiles'], the
    constructed graph ends with one output node per triple the scanner finds
    in the decoded inputs, after the nodes of the calls; each has no task
    name, the field path as [output_name], the locator as [output_path], and
    as [shard_idx] the list index of its triple, which is the positions of
    the locator inside the lists around it, or the sentinel [(-1,)] outside
    any list, and so never empty. *)
Theorem init_input_nodes (is_valid : string -> bool)
        (parse_document : string -> result wdl_document)
        (re_findall : string -> string -> list string)
        (json_loads : string -> result json)
        (top : list (string * json)) (submitted : json) (self : CromwellMetadata)
        (Hsub : dict_get "submittedFiles" top = Some submitted)
        (Hinit : init is_valid parse_document re_findall json_loads (JDict top)
                 = Constructed self) :
  exists fields inputs calls name,
    submitted = JDict fields
    /\ dict_get "inputs" fields = Some (JStr inputs)
    /\ json_loads inputs = Ok (_input_json self)
    /\ dict_get "calls" top = Some calls
    /\ _dag self
       = fst (parse_calls is_valid calls [name] [])
         ++ map (fun t => {| type := "output";
                             shard_idx := snd t;
                             task_name := None;
                             output_name := Some (fst (fst t));
                             output_path := Some (snd (fst t));
                             all_outputs := None;
                             all_inputs := None |})
                (find_files_in_dict is_valid (_input_json self) [] [])
    /\ (forall t,
           In t (find_files_in_dict is_valid (_input_json self) [] []) ->
           snd t <> []
           /\ exists keys idx s,
               locates (_input_json self) keys idx s /\ is_valid s = true
               /\ t = (Str.join "." keys, s, match idx with [] => [-1] | _ => idx end)).
Proof.
  unfold init, read_submitted_files in Hinit. rewrite Hsub in Hinit.
  destruct submitted as [| b | z | s | elems | fields]; try discriminate.
  destruct (dict_get "inputs" fields) as [[| b | z | inputs | elems | its]|] eqn:Einputs;
    try discriminate.
  destruct (json_loads inputs) as [input_json|e] eqn:Eloads; [|discriminate].
  destruct (dict_get "workflow" fields) as [[| b | z | w | elems | its]|];
    try discriminate.
  destruct (dict_get "id" top) as [workflow_id|]; [|discriminate].
  destruct (dict_get "calls" top) as [calls|]; [|discriminate].
  assert (Hfound : forall t,
             In t (find_files_in_dict is_valid input_json [] []) ->
             snd t <> []
             /\ exists keys idx s,
                 locates input_json keys idx s /\ is_valid s = true
                 /\ t = (Str.join "." keys, s, match idx with [] => [-1] | _ => idx end)).
  { intros t Hin. split; [exact (find_files_in_dict_idx _ _ _ _ _ Hin)|].
    apply find_files_in_dict_In in Hin. exact Hin. }
  destruct (dict_get "workflowName" top) as [[| b | z | s | elems | its]|];
    try discriminate.
  - destruct (parse_calls is_valid calls [None] []) as [nodes [|e|]] eqn:Ecalls;
      try discriminate.
    injection Hinit as <-. simpl. exists fields, inputs, calls, None.
    rewrite Ecalls, parse_input_json_eq. repeat split; auto; apply Hfound; assumption.
  - destruct (parse_calls is_valid calls [Some s] []) as [nodes [|e|]] eqn:Ecalls;
      try discriminate.
    injection Hinit as <-. simpl. exists fields, inputs, calls, (Some s).
    rewrite Ecalls, parse_input_json_eq. repeat split; auto; apply Hfound; assumption.
Qed.

Lemma init_input_nodes_witness :
  exists fields inputs calls name,
    demo_submitted = JDict fields
    /\ dict_get "inputs" fields = Some (JStr inputs)
    /\ demo_loads inputs = Ok (_input_json demo_self)
    /\ dict_get "calls" [("id", JStr "w-1"); ("workflowName", JStr "wf");
                         ("submittedFiles", demo_submitted); ("calls", JDict [])]
       = Some calls
    /\ _dag demo_self
       = fst (parse_calls uri_like calls [name] [])
         ++ map (fun t => {| type := "output";
                             shard_idx := snd t;
                             task_name := None;
                             output_name := Some (fst (fst t));
                             output_path := Some (snd (fst t));
                             all_outputs := None;
                             all_inputs := None |})
                (find_files_in_dict uri_like (_input_json demo_self) [] [])
    /\ (forall t,
           In t (find_files_in_dict uri_like (_input_json demo_self) [] []) ->
           snd t <> []
           /\ exists keys idx s,
               locates (_input_json demo_self) keys idx s /\ uri_like s = true
               /\ t = (Str.join "." keys, s, match idx with [] => [-1] | _ => idx end)).
Proof.
  apply (init_input_nodes uri_like failing_parser Comment.findall demo_loads
                          _ demo_submitted demo_self); reflexivity.
Defined.

(** C6 (as stated) fails: the nodes of the workflow inputs carry the list
    index of their locator as [shard_idx], [(-1,)] outside a list; it is not
    empty. *)
Lemma init_input_nodes_shard_idx :
  init uri_like failing_parser Comment.findall demo_loads demo_metadata
  = Constructed demo_self
  /\ map task_name (_dag demo_self) = [None; None; None]
  /\ map shard_idx (_dag demo_self) = [[0]; [1]; [-1]]
  /\ Forall (fun n => shard_idx n <> []) (_dag demo_self).
Proof.
  repeat split. repeat constructor; discriminate.
Qed.

(** ** The output-definition locator *)

Lemma flat_map_nil_iff {A B : Type} (f : A -> list B) (l : list A) :
  flat_map f l = [] <-> Forall (fun x => f x = []) l.
Proof.
  induction l as [|a l IH]; simpl.
  - split; [constructor | reflexivity].
  - split.
    + intros H. apply app_eq_nil in H. destruct H as [Ha Hl].
      constructor; [exact Ha | now apply IH].
    + intros H. inversion H as [|? ? Ha Hl]; subst.
      rewrite Ha. simpl. now apply IH.
Qed.

(** The head of a concatenation of results comes from the first element
    with a result. *)
Lemma flat_map_head {A B : Type} (f : A -> list B) (l : list A) (v : B) :
  (exists rest, flat_map f l = v :: rest)
  <-> exists before x after rest',
      l = before ++ x :: after /\ Forall (fun y => f y = []) before
      /\ f x = v :: rest'.
Proof.
  induction l as [|a l IH]; simpl.
  - split.
    + intros [rest H]. discriminate.
    + intros (before & x & after & rest' & H & _). destruct before; discriminate.
  - split.
    + intros [rest H]. destruct (f a) as [|b bs] eqn:Ea.
      * simpl in H. destruct (proj1 IH (ex_intro _ rest H))
          as (before & x & after & rest' & -> & Hb & Hx).
        exists (a :: before), x, after, rest'. repeat split; auto.
      * simpl in H. injection H as -> _.
        exists [], a, l, bs. repeat split; auto.
    + intros (before & x & after & rest' & H & Hb & Hx).
      destruct before as [|b before]; simpl in H.
      * injection H as <- <-. rewrite Hx. simpl. eauto.
      * injection H as <- ->. inversion Hb as [|? ? Ha Hb']; subst.
        rewrite Ha. simpl. apply IH. exists before, x, after, rest'. auto.
Qed.

Lemma length_pos_iff (s : string) : (0 <? String.length s)%nat = true <-> s <> "".
Proof.
  destruct s; unfold Nat.ltb; simpl; split; intros H; try reflexivity;
    try discriminate.
  now elim H.
Qed.

Section LocatorFacts.

Variable parse_document : string -> result wdl_document.
Variable re_findall : string -> string -> list string.

Lemma val_of_line_nil (pattern line : string) :
  val_of_line re_findall pattern line = []
  <-> match re_findall pattern line with
      | r0 :: _ => Str.strip r0 = ""
      | [] => True
      end.
Proof.
  unfold val_of_line. destruct (re_findall pattern line) as [|r0 rs]; [tauto|].
  destruct (Str.strip r0); simpl; split; congruence.
Qed.

Lemma val_of_line_cons (pattern line v : string) (rest : list string) :
  val_of_line re_findall pattern line = v :: rest
  <-> rest = []
      /\ exists r0 rs, re_findall pattern line = r0 :: rs /\ Str.strip r0 = v /\ v <> "".
Proof.
  unfold val_of_line. destruct (re_findall pattern line) as [|r0 rs].
  - split; [discriminate|]. intros [_ (r & l & H & _)]. discriminate.
  - destruct (0 <? String.length (Str.strip r0))%nat eqn:E.
    + apply length_pos_iff in E. split.
      * intros [= <- <-]. split; [reflexivity|]. exists r0, rs. auto.
      * intros [-> (r & l & [= <- <-] & <- & _)]. reflexivity.
    + split; [discriminate|]. intros [_ (r & l & [= <- <-] & <- & Hne)].
      apply length_pos_iff in Hne. congruence.
Qed.

(** A failure of the parser is a failure of the [try] block. *)
Lemma find_workflow_meta_try_parser (wdl_str key : string) (e : exn) :
  parse_document wdl_str = Raise e ->
  find_workflow_meta_try parse_document wdl_str key = Raise e.
Proof. intros H. unfold find_workflow_meta_try. now rewrite H. Qed.

Lemma find_workflow_meta_found (wdl_str key v : string) (wdl : wdl_document)
      (wf : wdl_workflow) :
  parse_document wdl_str = Ok wdl -> workflow wdl = Some wf ->
  meta_get key (meta wf) = Some v ->
  find_workflow_meta parse_document wdl_str key = Some v.
Proof.
  intros Hp Hw Hm. unfold find_workflow_meta, find_workflow_meta_try.
  now rewrite Hp, Hw, Hm.
Qed.

End LocatorFacts.

(** C8: a value under the meta key is returned whatever the source text
    holds, and the choice of the text scan has no bearing on the result
    then; when the meta lookup finds nothing the result is the stripped first
    match of the first line whose stripped match is not empty, and [None] if
    there is no such line. *)
Theorem find_out_def_from_wdl_order (parse_document : string -> result wdl_document)
        (re_findall : string -> string -> list string) (wdl_str : string) :
  (forall wdl wf v,
      parse_document wdl_str = Ok wdl -> workflow wdl = Some wf ->
      meta_get WDL_WORKFLOW_META_OUT_DEF (meta wf) = Some v ->
      find_out_def_from_wdl parse_document re_findall wdl_str = Some v)
  /\ (forall v,
         find_workflow_meta parse_document wdl_str WDL_WORKFLOW_META_OUT_DEF = Some v ->
         forall re_findall',
           find_out_def_from_wdl parse_document re_findall' wdl_str = Some v)
  /\ (find_workflow_meta parse_document wdl_str WDL_WORKFLOW_META_OUT_DEF = None ->
      (forall v,
          find_out_def_from_wdl parse_document re_findall wdl_str = Some v
          <-> exists before line after r0 rs,
              Str.lines wdl_str = before ++ line :: after
              /\ Forall (fun l =>
                           match re_findall RE_PATTERN_WDL_COMMENT_OUT_DEF_JSON l with
                           | r :: _ => Str.strip r = ""
                           | [] => True
                           end) before
              /\ re_findall RE_PATTERN_WDL_COMMENT_OUT_DEF_JSON line = r0 :: rs
              /\ Str.strip r0 = v /\ v <> "")
      /\ (find_out_def_from_wdl parse_document re_findall wdl_str = None
          <-> Forall (fun l =>
                        match re_findall RE_PATTERN_WDL_COMMENT_OUT_DEF_JSON l with
                        | r :: _ => Str.strip r = ""
                        | [] => True
                        end) (Str.lines wdl_str))).
Proof.
  split; [|split].
  - intros wdl wf v Hp Hw Hm. unfold find_out_def_from_wdl.
    now rewrite (find_workflow_meta_found _ _ _ _ _ _ Hp Hw Hm).
  - intros v Hv re'. unfold find_out_def_from_wdl. now rewrite Hv.
  - intros Hnone. unfold find_out_def_from_wdl. rewrite Hnone.
    unfold find_val_from_wdl. split.
    + intros v. split.
      * intros H.
        destruct (flat_map _ _) as [|r0 rest] eqn:E in H; [discriminate|].
        injection H as ->.
        destruct (proj1 (flat_map_head _ _ _) (ex_intro _ rest E))
          as (before & line & after & rest' & Hl & Hb & Hx).
        apply val_of_line_cons in Hx. destruct Hx as [_ (r & rs & Hr & Hs & Hne)].
        exists before, line, after, r, rs. repeat split; auto.
        eapply Forall_impl; [|exact Hb]. intros l Hl'. now apply val_of_line_nil.
      * intros (before & line & after & r & rs & Hl & Hb & Hr & Hs & Hne).
        assert (H : exists rest,
                   flat_map (val_of_line re_findall RE_PATTERN_WDL_COMMENT_OUT_DEF_JSON)
                            (Str.lines wdl_str) = v :: rest).
        { apply flat_map_head. exists before, line, after, [].
          repeat split; auto.
          - eapply Forall_impl; [|exact Hb]. intros l Hl'. now apply val_of_line_nil.
          - apply val_of_line_cons. split; [reflexivity|]. eauto. }
        destruct H as [rest ->]. reflexivity.
    + split.
      * intros H.
        destruct (flat_map _ _) as [|r0 rest] eqn:E in H; [|discriminate].
        apply flat_map_nil_iff in E.
        eapply Forall_impl; [|exact E]. intros l Hl. now apply val_of_line_nil.
      * intros H.
        assert (E : flat_map (val_of_line re_findall RE_PATTERN_WDL_COMMENT_OUT_DEF_JSON)
                             (Str.lines wdl_str) = []).
        { apply flat_map_nil_iff. eapply Forall_impl; [|exact H].
          intros l Hl. now apply val_of_line_nil. }
        now rewrite E.
Qed.

Lemma find_out_def_from_wdl_order_witness :
  find_out_def_from_wdl (parser_with_meta "gs://b/meta_out_def.json")
                        Comment.findall demo_wdl
  = Some "gs://b/meta_out_def.json"
  /\ find_out_def_from_wdl failing_parser Comment.findall demo_wdl
     = Some "gs://b/out_def.json".
Proof.
  split.
  - apply (proj1 (find_out_def_from_wdl_order
                    (parser_with_meta "gs://b/meta_out_def.json") Comment.findall demo_wdl)
                 {| workflow := Some {| meta := [("description", "demo");
                                                 ("croo_out_def", "gs://b/meta_out_def.json")] |} |}
                 {| meta := [("description", "demo");
                             ("croo_out_def", "gs://b/meta_out_def.json")] |});
      reflexivity.
  - apply (proj2 (proj2 (find_out_def_from_wdl_order failing_parser Comment.findall demo_wdl))
                 eq_refl).
    exists ["version 1.0"], "# CROO out_def gs://b/out_def.json", ["workflow wf {}"],
           "gs://b/out_def.json", [].
    repeat split; try discriminate. repeat constructor.
Defined.

(** C9 (as amended): a failure inside the [try] block of the meta lookup,
    a failure of the source parser among them, is absorbed: the meta lookup
    gives [None], the locator goes on to the comment scan of the source text
    and returns its first value, or [None] when the scan finds nothing; the
    constructed graph is the one any other source parser would have given. *)
Theorem find_workflow_meta_absorbs (parse_document : string -> result wdl_document)
        (re_findall : string -> string -> list string) (wdl_str : string) (e : exn)
        (Hfail : find_workflow_meta_try parse_document wdl_str WDL_WORKFLOW_META_OUT_DEF
                 = Raise e) :
  find_workflow_meta parse_document wdl_str WDL_WORKFLOW_META_OUT_DEF = None
  /\ find_out_def_from_wdl parse_document re_findall wdl_str
     = hd_error (find_val_from_wdl re_findall wdl_str RE_PATTERN_WDL_COMMENT_OUT_DEF_JSON)
  /\ (find_val_from_wdl re_findall wdl_str RE_PATTERN_WDL_COMMENT_OUT_DEF_JSON = [] ->
      find_out_def_from_wdl parse_document re_findall wdl_str = None)
  /\ forall is_valid json_loads metadata_json parse_document',
      same_graph (init is_valid parse_document re_findall json_loads metadata_json)
                 (init is_valid parse_document' re_findall json_loads metadata_json).
Proof.
  assert (Hnone : find_workflow_meta parse_document wdl_str WDL_WORKFLOW_META_OUT_DEF
                  = None).
  { unfold find_workflow_meta. now rewrite Hfail. }
  assert (Hscan : find_out_def_from_wdl parse_document re_findall wdl_str
                  = hd_error (find_val_from_wdl re_findall wdl_str
                                                RE_PATTERN_WDL_COMMENT_OUT_DEF_JSON)).
  { unfold find_out_def_from_wdl. rewrite Hnone.
    destruct (find_val_from_wdl _ _ _); reflexivity. }
  repeat split.
  - exact Hnone.
  - exact Hscan.
  - intros Hempty. now rewrite Hscan, Hempty.
  - intros. apply init_parser.
Qed.

Lemma find_workflow_meta_absorbs_witness :
  find_workflow_meta failing_parser "workflow wf {" WDL_WORKFLOW_META_OUT_DEF = None
  /\ find_out_def_from_wdl failing_parser Comment.findall "workflow wf {"
     = hd_error (find_val_from_wdl Comment.findall "workflow wf {"
                                   RE_PATTERN_WDL_COMMENT_OUT_DEF_JSON)
  /\ (find_val_from_wdl Comment.findall "workflow wf {"
                        RE_PATTERN_WDL_COMMENT_OUT_DEF_JSON = [] ->
      find_out_def_from_wdl failing_parser Comment.findall "workflow wf {" = None)
  /\ forall is_valid json_loads metadata_json parse_document',
      same_graph (init is_valid failing_parser Comment.findall json_loads metadata_json)
                 (init is_valid parse_document' Comment.findall json_loads metadata_json).
Proof.
  apply (find_workflow_meta_absorbs failing_parser Comment.findall "workflow wf {"
                                    (OtherError "WDL.Error.SyntaxError")).
  reflexivity.
Defined.

(** C9 (as stated) fails: with a source parser that fails on the text, the
    locator still returns the reference of the [# CROO out_def] comment, not
    [None]. *)
Lemma find_out_def_after_parser_failure :
  failing_parser demo_wdl = Raise (OtherError "WDL.Error.SyntaxError")
  /\ find_workflow_meta failing_parser demo_wdl WDL_WORKFLOW_META_OUT_DEF = None
  /\ find_out_def_from_wdl failing_parser Comment.findall demo_wdl
     = Some "gs://b/out_def.json"
  /\ find_out_def_from_wdl failing_parser Comment.findall demo_wdl <> None.
Proof. repeat split. discriminate. Qed.

(** * Further properties of the parser *)

Lemma for_each_run {A : Type} (P : list CMNode -> Prop) (f : A -> run) (l : list A) :
  P [] ->
  (forall l1 l2, P l1 -> P l2 -> P (l1 ++ l2)) ->
  (forall x, In x l -> P (fst (f x))) ->
  P (fst (for_each f l)).
Proof.
  intros Hnil Happ. induction l as [|a l IH]; intros H; simpl; [exact Hnil|].
  unfold and_then. assert (Ha := H a (or_introl eq_refl)).
  destruct (snd (f a)); simpl; try assumption.
  apply Happ; [assumption|]. apply IH. intros x Hx. apply H. now right.
Qed.

Lemma truthy_entries_app (a b : list (option string)) :
  truthy_entries (a ++ b) = truthy_entries a ++ truthy_entries b.
Proof. unfold truthy_entries. apply flat_map_app. Qed.

Section RunInduction.

Variable is_valid : string -> bool.

(** Induction on a run: a property of node sequences that holds of the empty
    sequence and of the nodes of every leaf invocation, is kept by
    concatenation, and passes from a sub-workflow to the call around it,
    holds of every run. *)
Lemma parse_calls_run_ind
      (P : list (option string) -> list Z -> list CMNode -> Prop) :
  (forall parents shards, P parents shards []) ->
  (forall parents shards l1 l2,
      P parents shards l1 -> P parents shards l2 -> P parents shards (l1 ++ l2)) ->
  (forall fields alias parents shards s,
      parents <> [] ->
      P parents shards (leaf_nodes is_valid fields alias parents shards s)) ->
  (forall parents shards alias s l,
      parents <> [] ->
      P (parents ++ [alias]) (shards ++ [s]) l -> P parents shards l) ->
  forall calls parents shards,
    P parents shards (fst (parse_calls is_valid calls parents shards)).
Proof.
  intros Hnil Happ Hleaf Hup calls.
  induction calls as [calls IH] using json_size_induction.
  intros [|p ps] shards; [rewrite parse_calls_no_parents; apply Hnil|].
  destruct calls as [| b | z | s | elems | items]; try apply Hnil.
  rewrite parse_calls_unfold.
  apply for_each_run; [apply Hnil | apply Happ |]. intros [k cl] Hkv.
  unfold parse_call_list. simpl fst; simpl snd.
  destruct (alias_of_call_name k) as [alias|e]; [|apply Hnil].
  assert (Hcl := json_size_item _ _ _ Hkv).
  destruct cl as [| b | z | s | cs | its]; try apply Hnil.
  - destruct s; apply Hnil.
  - simpl. apply for_each_run; [apply Hnil | apply Happ |]. intros c Hc.
    assert (Hcs := json_size_elem _ _ Hc).
    unfold parse_call.
    destruct c as [| b | z | s | elems | fields]; try apply Hnil.
    destruct (dict_get "shardIndex" fields) as [[| b | z | s | elems | its]|];
      try apply Hnil.
    destruct (dict_get "subWorkflowMetadata" fields)
      as [[| b | z' | s | elems | sf]|] eqn:Esub; try apply Hnil.
    + destruct (dict_get "calls" sf) as [sc|] eqn:Ecalls; [|apply Hnil].
      apply (Hup _ _ alias z); [discriminate|]. apply IH.
      assert (H1 := json_size_item _ _ _ (dict_get_In _ _ _ Esub)).
      assert (H2 := json_size_item _ _ _ (dict_get_In _ _ _ Ecalls)).
      lia.
    + apply Hleaf. discriminate.
  - destruct its; apply Hnil.
Qed.

End RunInduction.

(** X2: every output node of a run comes with its task: the run holds a task
    node that [is_parent_cmnode] accepts as its parent and whose
    [all_outputs] lists the path of the output node. *)
Theorem parse_calls_output_has_task (is_valid : string -> bool) (calls : json)
        (parents : list (option string)) (shards : list Z) (o : CMNode)
        (Hin : In o (fst (parse_calls is_valid calls parents shards)))
        (Htype : type o = "output") :
  exists t triples p,
    In t (fst (parse_calls is_valid calls parents shards))
    /\ type t = "task"
    /\ is_parent_cmnode t o = Ok true
    /\ all_outputs t = Some triples
    /\ output_path o = Some p
    /\ In p (map triple_path triples).
Proof.
  revert o Hin Htype.
  apply (parse_calls_run_ind is_valid
           (fun _ _ l =>
              forall o, In o l -> type o = "output" ->
                        exists t triples p,
                          In t l /\ type t = "task" /\ is_parent_cmnode t o = Ok true
                          /\ all_outputs t = Some triples /\ output_path o = Some p
                          /\ In p (map triple_path triples))).
  - intros _ _ o [].
  - intros _ _ l1 l2 H1 H2 o Hin Ho. apply in_app_iff in Hin.
    destruct Hin as [Hin | Hin]; [destruct (H1 o Hin Ho) as (t & tr & p & Ht & H)
                                 | destruct (H2 o Hin Ho) as (t & tr & p & Ht & H)];
      exists t, tr, p; (split; [apply in_app_iff; auto | exact H]).
  - intros fields alias ps sh s _ o Hin Ho. unfold leaf_nodes in *.
    destruct Hin as [<- | Hin]; [discriminate Ho|].
    destruct (dict_get "outputs" fields) as [v|]; [|contradiction].
    apply in_map_iff in Hin. destruct Hin as [x [<- Hx]].
    destruct (find_files_in_dict is_valid v [] []) as [|y ys] eqn:Efiles;
      [contradiction|].
    eexists. exists (y :: ys), (triple_path x).
    split; [left; reflexivity|]. repeat split.
    + unfold is_parent_cmnode. simpl.
      rewrite String.eqb_refl. unfold list_Z_eqb.
      destruct (list_eq_dec Z.eq_dec (sh ++ [s]) (sh ++ [s])); [reflexivity|].
      congruence.
    + now apply in_map.
  - intros _ _ _ _ l _ H. exact H.
Qed.

Lemma parse_calls_output_has_task_witness :
  exists t triples p,
    In t (fst (parse_calls uri_like demo_leaf_calls [Some "wf"] []))
    /\ type t = "task"
    /\ is_parent_cmnode t (output_node "wf.taskA" [-1] ("out1", "gs://b/out1.txt", [-1]))
       = Ok true
    /\ all_outputs t = Some triples
    /\ output_path (output_node "wf.taskA" [-1] ("out1", "gs://b/out1.txt", [-1])) = Some p
    /\ In p (map triple_path triples).
Proof.
  apply (parse_calls_output_has_task uri_like demo_leaf_calls [Some "wf"] []).
  - vm_compute. right. left. reflexivity.
  - reflexivity.
Defined.

Lemma for_each_call_ext (f g : json -> run) (call_list : json) :
  (forall c, json_size c < json_size call_list -> f c = g c)%nat ->
  for_each_call f call_list = for_each_call g call_list.
Proof.
  intros H. destruct call_list as [| b | z | s | cs | its]; try reflexivity.
  simpl. apply for_each_ext. intros c Hc. apply H. now apply json_size_elem.
Qed.

Lemma leaf_nodes_chain (is_valid : string -> bool) (fields : list (string * json))
      (alias : option string) (p1 p2 : list (option string)) (shards : list Z) (s : Z) :
  truthy_entries p1 = truthy_entries p2 ->
  leaf_nodes is_valid fields alias p1 shards s
  = leaf_nodes is_valid fields alias p2 shards s.
Proof.
  intros H. unfold leaf_nodes. now rewrite !truthy_entries_app, H.
Qed.

(** X3: the absent and the empty entries of the ancestor chain leave no
    trace: two non-empty chains with the same truthy entries give the same
    run, so a level of anonymous scatter changes no name. *)
Theorem parse_calls_chain (is_valid : string -> bool) (calls : json)
        (p1 p2 : list (option string)) (shards : list Z)
        (H1 : p1 <> []) (H2 : p2 <> [])
        (Hsame : truthy_entries p1 = truthy_entries p2) :
  parse_calls is_valid calls p1 shards = parse_calls is_valid calls p2 shards.
Proof.
  revert p1 p2 shards H1 H2 Hsame.
  induction calls as [calls IH] using json_size_induction.
  intros [|a1 l1] [|a2 l2] shards H1 H2 Hsame; try congruence.
  destruct calls as [| b | z | s | elems | items]; try reflexivity.
  rewrite !parse_calls_unfold. apply for_each_ext. intros [k cl] Hkv.
  unfold parse_call_list. simpl fst; simpl snd.
  destruct (alias_of_call_name k) as [alias|e]; [|reflexivity].
  assert (Hcl := json_size_item _ _ _ Hkv).
  apply for_each_call_ext. intros c Hc. unfold parse_call.
  destruct c as [| b | z | s | elems | fields]; try reflexivity.
  destruct (dict_get "shardIndex" fields) as [[| b | z | s | elems | its]|];
    try reflexivity.
  destruct (dict_get "subWorkflowMetadata" fields)
    as [[| b | z' | s | elems | sf]|] eqn:Esub; try reflexivity.
  - destruct (dict_get "calls" sf) as [sc|] eqn:Ecalls; [|reflexivity].
    apply IH.
    + assert (E1 := json_size_item _ _ _ (dict_get_In _ _ _ Esub)).
      assert (E2 := json_size_item _ _ _ (dict_get_In _ _ _ Ecalls)).
      lia.
    + discriminate.
    + discriminate.
    + now rewrite !truthy_entries_app, Hsame.
  - unfold emit. f_equal. now apply leaf_nodes_chain.
Qed.

Lemma parse_calls_chain_witness :
  parse_calls uri_like demo_leaf_calls [Some "wf"; None] [3]
  = parse_calls uri_like demo_leaf_calls [Some "wf"] [3].
Proof.
  apply parse_calls_chain; [discriminate | discriminate | reflexivity].
Defined.

(** X4: the calls of a mapping are parsed one after the other, in the order
    of the document: the run on two mappings put end to end is the run on
    the first followed, if that one completes, by the run on the second, and
    the nodes of the first are an initial segment of the nodes of the whole. *)
Theorem parse_calls_app (is_valid : string -> bool)
        (items1 items2 : list (string * json))
        (p : option string) (ps : list (option string)) (shards : list Z) :
  parse_calls is_valid (JDict (items1 ++ items2)) (p :: ps) shards
  = and_then (parse_calls is_valid (JDict items1) (p :: ps) shards)
             (parse_calls is_valid (JDict items2) (p :: ps) shards)
  /\ is_prefix (fst (parse_calls is_valid (JDict items1) (p :: ps) shards))
               (fst (parse_calls is_valid (JDict (items1 ++ items2)) (p :: ps) shards))
  /\ (snd (parse_calls is_valid (JDict items1) (p :: ps) shards) <> Done ->
      parse_calls is_valid (JDict (items1 ++ items2)) (p :: ps) shards
      = parse_calls is_valid (JDict items1) (p :: ps) shards).
Proof.
  assert (H : parse_calls is_valid (JDict (items1 ++ items2)) (p :: ps) shards
              = and_then (parse_calls is_valid (JDict items1) (p :: ps) shards)
                         (parse_calls is_valid (JDict items2) (p :: ps) shards)).
  { rewrite !parse_calls_unfold. apply for_each_app. }
  rewrite H. split; [reflexivity|]. unfold and_then, is_prefix.
  destruct (parse_calls is_valid (JDict items1) (p :: ps) shards) as [n1 o1].
  destruct o1; simpl; split; eauto; try (exists []; now rewrite app_nil_r);
    try congruence.
Qed.

Lemma parse_calls_app_witness :
  parse_calls uri_like
    (JDict ([("wf.a.b", JList [])] ++ [("wf.taskA", JList [])])) [Some "wf"] []
  = parse_calls uri_like (JDict [("wf.a.b", JList [])]) [Some "wf"] [].
Proof.
  apply (parse_calls_app uri_like [("wf.a.b", JList [])] [("wf.taskA", JList [])]).
  vm_compute. discriminate.
Defined.

Lemma for_each_outcome {A : Type} (Q : outcome -> Prop) (f : A -> run) (l : list A) :
  Q Done -> (forall x, In x l -> Q (snd (f x))) -> Q (snd (for_each f l)).
Proof.
  intros Hdone. induction l as [|a l IH]; intros H; simpl; [exact Hdone|].
  unfold and_then. assert (Ha := H a (or_introl eq_refl)).
  destruct (snd (f a)) eqn:E; simpl; try (rewrite E; exact Ha).
  apply IH. intros x Hx. apply H. now right.
Qed.

Lemma alias_of_call_name_raise (call_name : string) (e : exn) :
  alias_of_call_name call_name = Raise e ->
  e = ValueError "Wrong temporary call name format for a nested subworkflow."
  \/ e = ValueError "Wrong call name format. Too many dots.".
Proof.
  unfold alias_of_call_name.
  destruct (Nat.eqb _ 2); [discriminate|].
  destruct (Nat.eqb _ 1).
  - destruct (negb _); [|discriminate]. intros [= <-]. now left.
  - intros [= <-]. now right.
Qed.

(** X5: under a non-empty ancestor chain a run ends in one of eight ways:
    it completes, it meets a [shardIndex] outside the embedding, or it raises
    one of the two [ValueError]s of the call names, [KeyError('shardIndex')],
    [KeyError('calls')], [TypeError] or [AttributeError]; the [ValueError] of
    the empty chain is raised on an empty chain only, before any node. *)
Theorem parse_calls_outcomes (is_valid : string -> bool) (calls : json)
        (parents : list (option string)) (shards : list Z) :
  (parents <> [] ->
   let o := snd (parse_calls is_valid calls parents shards) in
   (o = Done \/ o = Unmodelled
    \/ o = Raised (ValueError "Wrong temporary call name format for a nested subworkflow.")
    \/ o = Raised (ValueError "Wrong call name format. Too many dots.")
    \/ o = Raised (KeyError "shardIndex") \/ o = Raised (KeyError "calls")
    \/ o = Raised TypeError \/ o = Raised AttributeError)
   /\ o <> Raised (ValueError msg_parent_workflows))
  /\ (parents = [] ->
      parse_calls is_valid calls parents shards
      = ([], Raised (ValueError msg_parent_workflows))).
Proof.
  split; [|intros ->; apply parse_calls_no_parents].
  intros Hne o.
  assert (H : o = Done \/ o = Unmodelled
    \/ o = Raised (ValueError "Wrong temporary call name format for a nested subworkflow.")
    \/ o = Raised (ValueError "Wrong call name format. Too many dots.")
    \/ o = Raised (KeyError "shardIndex") \/ o = Raised (KeyError "calls")
    \/ o = Raised TypeError \/ o = Raised AttributeError).
  { subst o. revert parents shards Hne.
    induction calls as [calls IH] using json_size_induction.
    intros [|p ps] shards Hne; [congruence|].
    destruct calls as [| b | z | s | elems | items]; try (simpl; tauto).
    rewrite parse_calls_unfold.
    apply for_each_outcome; [tauto|]. intros [k cl] Hkv.
    unfold parse_call_list. simpl fst; simpl snd.
    destruct (alias_of_call_name k) as [alias|e] eqn:Ealias.
    2:{ destruct (alias_of_call_name_raise _ _ Ealias) as [-> | ->]; simpl; tauto. }
    assert (Hcl := json_size_item _ _ _ Hkv).
    destruct cl as [| b | z | s | cs | its]; simpl snd; try tauto.
    - destruct s; simpl; tauto.
    - simpl. apply for_each_outcome; [tauto|]. intros c Hc.
      assert (Hcs := json_size_elem _ _ Hc).
      unfold parse_call.
      destruct c as [| b | z | s | elems | fields]; simpl snd; try tauto.
      destruct (dict_get "shardIndex" fields) as [[| b | z | s | elems | its]|];
        simpl snd; try tauto.
      destruct (dict_get "subWorkflowMetadata" fields)
        as [[| b | z' | s | elems | sf]|] eqn:Esub; simpl snd; try tauto.
      destruct (dict_get "calls" sf) as [sc|] eqn:Ecalls; simpl snd; [|tauto].
      apply IH; [|destruct ps; discriminate].
      assert (E1 := json_size_item _ _ _ (dict_get_In _ _ _ Esub)).
      assert (E2 := json_size_item _ _ _ (dict_get_In _ _ _ Ecalls)).
      lia.
    - destruct its; simpl; tauto. }
  split; [exact H|].
  intros Heq. rewrite Heq in H.
  repeat (destruct H as [H | H]; [discriminate H|]). discriminate H.
Qed.

Lemma parse_calls_outcomes_witness :
  let o := snd (parse_calls uri_like demo_leaf_calls [Some "wf"] []) in
  (o = Done \/ o = Unmodelled
   \/ o = Raised (ValueError "Wrong temporary call name format for a nested subworkflow.")
   \/ o = Raised (ValueError "Wrong call name format. Too many dots.")
   \/ o = Raised (KeyError "shardIndex") \/ o = Raised (KeyError "calls")
   \/ o = Raised TypeError \/ o = Raised AttributeError)
  /\ o <> Raised (ValueError msg_parent_workflows).
Proof.
  apply (parse_calls_outcomes uri_like demo_leaf_calls [Some "wf"] []). discriminate.
Defined.

Lemma for_each_cons {A : Type} (f : A -> run) (x : A) (l : list A) :
  for_each f (x :: l) = and_then (f x) (for_each f l).
Proof. reflexivity. Qed.

Lemma for_each_nil {A : Type} (f : A -> run) : for_each f [] = done.
Proof. reflexivity. Qed.

Lemma and_then_raised_l (e : exn) (a : run) : and_then (raised e) a = raised e.
Proof. reflexivity. Qed.

Lemma parse_call_list_list (is_valid : string -> bool) (call_name : string)
      (alias : option string) (cs : list json)
      (parents : list (option string)) (shards : list Z) :
  alias_of_call_name call_name = Ok alias ->
  parse_call_list is_valid (call_name, JList cs) parents shards
  = for_each (fun c => parse_call is_valid c alias parents shards) cs.
Proof. intros H. unfold parse_call_list. simpl fst. now rewrite H. Qed.

(** X6: an invocation record without ['shardIndex'] ends the run with
    [KeyError('shardIndex')] where the loops stand: the nodes of the calls
    and invocations before it are kept and nothing after it is parsed,
    whatever else the record holds. *)
Theorem parse_calls_missing_shard_index (is_valid : string -> bool)
        (before after : list (string * json)) (call_name : string)
        (alias : option string) (cs1 cs2 : list json) (fields : list (string * json))
        (p : option string) (ps : list (option string)) (shards : list Z)
        (Halias : alias_of_call_name call_name = Ok alias)
        (Hmissing : dict_get "shardIndex" fields = None) :
  parse_calls is_valid
    (JDict (before ++ (call_name, JList (cs1 ++ JDict fields :: cs2)) :: after))
    (p :: ps) shards
  = and_then (parse_calls is_valid (JDict (before ++ [(call_name, JList cs1)]))
                          (p :: ps) shards)
             (raised (KeyError "shardIndex")).
Proof.
  assert (Hc : parse_call is_valid (JDict fields) alias (p :: ps) shards
               = raised (KeyError "shardIndex")).
  { unfold parse_call. now rewrite Hmissing. }
  rewrite !parse_calls_unfold, !for_each_app, !for_each_cons, for_each_nil.
  rewrite !(parse_call_list_list _ _ _ _ _ _ Halias).
  rewrite for_each_app, for_each_cons, Hc, and_then_raised_l.
  rewrite and_then_done_r, !and_then_assoc, and_then_raised_l. reflexivity.
Qed.

Lemma parse_calls_missing_shard_index_witness :
  parse_calls uri_like
    (JDict ([] ++ ("wf.taskA",
                   JList ([JDict [("shardIndex", JInt 0)]]
                            ++ JDict [("outputs", JDict [("o", JStr "gs://b/o")])]
                            :: [JDict [("shardIndex", JInt 2)]]))
               :: [("wf.taskB", JList [JDict [("shardIndex", JInt (-1))]])]))
    [Some "wf"] []
  = and_then (parse_calls uri_like
                (JDict ([] ++ [("wf.taskA", JList [JDict [("shardIndex", JInt 0)]])]))
                [Some "wf"] [])
             (raised (KeyError "shardIndex")).
Proof.
  apply (parse_calls_missing_shard_index uri_like [] _ "wf.taskA" (Some "taskA"));
    reflexivity.
Defined.

(** X7: the workflow inputs are roots: no node of a run of the parser is a
    parent of a node of the input JSON. *)
Theorem input_nodes_are_roots (is_valid : string -> bool) (calls input_json : json)
        (parents : list (option string)) (shards : list Z) (n i : CMNode)
        (Hn : In n (fst (parse_calls is_valid calls parents shards)))
        (Hi : In i (parse_input_json is_valid input_json)) :
  is_parent_cmnode n i = Ok false.
Proof.
  assert (H : Forall (fun n => (type n = "task" \/ type n = "output")
                               /\ exists name, task_name n = Some name)
                     (fst (parse_calls is_valid calls parents shards))).
  { apply parse_calls_Forall. intros fields alias ps sh s. unfold leaf_nodes.
    constructor; [split; [now left | eexists; reflexivity]|].
    destruct (dict_get "outputs" fields) as [v|]; [|constructor].
    apply Forall_forall. intros x Hx. apply in_map_iff in Hx.
    destruct Hx as [t [<- _]]. split; [now right | eexists; reflexivity]. }
  rewrite Forall_forall in H. destruct (H n Hn) as [Htype [name Hname]].
  rewrite parse_input_json_eq in Hi. apply in_map_iff in Hi.
  destruct Hi as [t [<- _]].
  unfold is_parent_cmnode. simpl. rewrite Hname.
  destruct Htype as [-> | ->]; reflexivity.
Qed.

Lemma input_nodes_are_roots_witness :
  is_parent_cmnode demo_leaf_task (input_node ("wf.genome", "gs://b/hg38.tsv", [-1]))
  = Ok false.
Proof.
  apply (input_nodes_are_roots uri_like demo_leaf_calls demo_inputs [Some "wf"] []).
  - vm_compute. left. reflexivity.
  - vm_compute. right. right. left. reflexivity.
Defined.

(** ** Call names *)

Lemma split_join (s : string) : Str.join "." (Str.split "." s) = s.
Proof.
  unfold Str.join. induction s as [|c s IH]; [reflexivity|]. simpl.
  assert (Hne := split_nonempty "." s).
  destruct (Ascii.eqb c ".") eqn:E.
  - apply Ascii.eqb_eq in E. subst c.
    destruct (Str.split "." s) as [|seg segs]; [simpl in Hne; lia|].
    simpl in *. now rewrite IH.
  - destruct (Str.split "." s) as [|seg segs]; [simpl in Hne; lia|].
    simpl in *. destruct segs; simpl in *; now rewrite <- IH.
Qed.

Lemma split_no_dot (s : string) :
  Forall (fun seg => contains_dot seg = false) (Str.split "." s).
Proof.
  induction s as [|c s IH]; simpl; [repeat constructor|].
  destruct (Ascii.eqb c ".") eqn:E; [constructor; [reflexivity | exact IH]|].
  destruct (Str.split "." s) as [|seg segs]; [repeat constructor; simpl; now rewrite E|].
  inversion IH; subst. constructor; [simpl; now rewrite E | assumption].
Qed.

Lemma split_without_dot (s : string) :
  contains_dot s = false -> Str.split "." s = [s].
Proof.
  induction s as [|c s IH]; [reflexivity|]. simpl.
  destruct (Ascii.eqb c "."); [discriminate|]. simpl. intros H. now rewrite (IH H).
Qed.

Lemma split_at_dot (a b : string) :
  contains_dot a = false ->
  Str.split "." (a ++ "." ++ b)%string = a :: Str.split "." b.
Proof.
  induction a as [|c a IH]; [reflexivity|]. simpl.
  destruct (Ascii.eqb c "."); [discriminate|]. simpl. intros H.
  specialize (IH H). simpl in IH. rewrite IH. reflexivity.
Qed.

(** X8: a call name is given an alias exactly when it is [owner.alias] with
    no further dot, and the alias is then the part after the dot; it is
    accepted without alias exactly when it has no dot and starts with
    ['ScatterAt']. *)
Theorem alias_of_call_name_shape (call_name : string) :
  (forall alias,
      alias_of_call_name call_name = Ok (Some alias)
      <-> exists owner,
          call_name = (owner ++ "." ++ alias)%string
          /\ contains_dot owner = false /\ contains_dot alias = false)
  /\ (alias_of_call_name call_name = Ok None
      <-> contains_dot call_name = false
          /\ Str.startswith "ScatterAt" call_name = true).
Proof.
  assert (Hjoin := split_join call_name).
  assert (Hdots := split_no_dot call_name).
  split; [intros alias|]; split.
  - unfold alias_of_call_name. intros H.
    destruct (Str.split "." call_name) as [|o [|a [|c l]]]; simpl in H;
      try discriminate.
    + destruct (negb _); discriminate.
    + injection H as ->. exists o. inversion Hdots as [|? ? Ho Hrest]; subst.
      inversion Hrest; subst. repeat split; auto.
  - intros (owner & -> & Ho & Ha). unfold alias_of_call_name.
    rewrite (split_at_dot _ _ Ho), (split_without_dot _ Ha). reflexivity.
  - unfold alias_of_call_name. intros H.
    destruct (Str.split "." call_name) as [|o [|a [|c l]]]; simpl in H;
      try discriminate.
    destruct (Str.startswith "ScatterAt" call_name); [|discriminate].
    simpl in Hjoin. subst o. inversion Hdots; subst. now split.
  - intros [Hd Hs]. unfold alias_of_call_name.
    rewrite (split_without_dot _ Hd), Hs. reflexivity.
Qed.

Lemma alias_of_call_name_shape_witness :
  alias_of_call_name "atac.align_mito" = Ok (Some "align_mito").
Proof.
  apply (alias_of_call_name_shape "atac.align_mito"). exists "atac".
  repeat split.
Defined.

(** ** Values of the comment scan *)

Lemma rstrip_idem (s : string) : Str.rstrip (Str.rstrip s) = Str.rstrip s.
Proof.
  induction s as [|c s IH]; [reflexivity|]. simpl.
  destruct (Str.rstrip s) as [|k kept] eqn:E.
  - destruct (Str.isspace c) eqn:Ec; [reflexivity|]. simpl. now rewrite Ec.
  - simpl in *. rewrite IH. reflexivity.
Qed.

Lemma lstrip_clean (s : string) : starts_clean (Str.lstrip s).
Proof.
  induction s as [|c s IH]; simpl; [exact I|].
  destruct (Str.isspace c) eqn:E; [exact IH | exact E].
Qed.

Lemma rstrip_clean (s : string) : starts_clean s -> starts_clean (Str.rstrip s).
Proof.
  destruct s as [|c s]; simpl; [trivial|]. intros Hc.
  destruct (Str.rstrip s); [rewrite Hc|]; exact Hc.
Qed.

Lemma lstrip_of_clean (s : string) : starts_clean s -> Str.lstrip s = s.
Proof. destruct s as [|c s]; simpl; [trivial|]. now intros ->. Qed.

Lemma strip_idem (s : string) : Str.strip (Str.strip s) = Str.strip s.
Proof.
  unfold Str.strip.
  rewrite (lstrip_of_clean _ (rstrip_clean _ (lstrip_clean s))).
  apply rstrip_idem.
Qed.

(** X9: every value the comment scan collects is the stripped first match of
    a line of the source text, is not empty and has no white space around it;
    so has the reference the locator returns when the meta lookup finds
    nothing. *)
Theorem find_val_from_wdl_values (parse_document : string -> result wdl_document)
        (re_findall : string -> string -> list string) (wdl_str v : string) :
  (forall regex_val,
      In v (find_val_from_wdl re_findall wdl_str regex_val) ->
      v <> "" /\ Str.strip v = v
      /\ exists line r0 rs,
          In line (Str.lines wdl_str)
          /\ re_findall regex_val line = r0 :: rs /\ v = Str.strip r0)
  /\ (find_workflow_meta parse_document wdl_str WDL_WORKFLOW_META_OUT_DEF = None ->
      find_out_def_from_wdl parse_document re_findall wdl_str = Some v ->
      v <> "" /\ Str.strip v = v).
Proof.
  assert (H : forall regex_val,
             In v (find_val_from_wdl re_findall wdl_str regex_val) ->
             v <> "" /\ Str.strip v = v
             /\ exists line r0 rs,
                 In line (Str.lines wdl_str)
                 /\ re_findall regex_val line = r0 :: rs /\ v = Str.strip r0).
  { intros regex_val Hin. unfold find_val_from_wdl in Hin.
    apply in_flat_map in Hin. destruct Hin as (line & Hline & Hv).
    unfold val_of_line in Hv.
    destruct (re_findall regex_val line) as [|r0 rs] eqn:Er; [contradiction|].
    destruct (0 <? String.length (Str.strip r0))%nat eqn:El; [|contradiction].
    destruct Hv as [<- | []]. apply length_pos_iff in El.
    repeat split; [exact El | apply strip_idem |].
    exists line, r0, rs. auto. }
  split; [exact H|].
  intros Hnone Hsome. unfold find_out_def_from_wdl in Hsome. rewrite Hnone in Hsome.
  destruct (find_val_from_wdl re_findall wdl_str RE_PATTERN_WDL_COMMENT_OUT_DEF_JSON)
    as [|r0 rest] eqn:E; [discriminate|].
  injection Hsome as ->.
  destruct (H RE_PATTERN_WDL_COMMENT_OUT_DEF_JSON) as (Hne & Hs & _);
    [rewrite E; now left | now split].
Qed.

Lemma find_val_from_wdl_values_witness :
  "gs://b/out_def.json" <> "" /\ Str.strip "gs://b/out_def.json" = "gs://b/out_def.json".
Proof.
  apply (proj2 (find_val_from_wdl_values failing_parser Comment.findall demo_wdl
                                         "gs://b/out_def.json"));
    reflexivity.
Defined.

(** ** The constructor and the command line *)

(** X10: a metadata document without ['submittedFiles'], as a detached
    sub-workflow record has it, is built without the JSON decoder, the source
    parser or the comment scan: the input JSON and the output-definition
    reference are [None] and the graph holds the nodes of the calls and
    nothing else. *)
Theorem init_without_submitted_files (is_valid : string -> bool)
        (parse_document : string -> result wdl_document)
        (re_findall : string -> string -> list string)
        (json_loads : string -> result json) (top : list (string * json))
        (Habsent : dict_get "submittedFiles" top = None) :
  (forall parse_document' re_findall' json_loads',
      init is_valid parse_document re_findall json_loads (JDict top)
      = init is_valid parse_document' re_findall' json_loads' (JDict top))
  /\ (forall self,
         init is_valid parse_document re_findall json_loads (JDict top)
         = Constructed self ->
         _input_json self = JNull /\ _wdl_str self = None
         /\ get_out_def_json_file self = None
         /\ exists calls name,
             dict_get "calls" top = Some calls
             /\ get_task_graph self = fst (parse_calls is_valid calls [name] [])).
Proof.
  split.
  - intros pd' re' loads'. unfold init, read_submitted_files. now rewrite Habsent.
  - intros self. unfold init, read_submitted_files. rewrite Habsent.
    destruct (dict_get "id" top) as [workflow_id|]; [|discriminate].
    destruct (dict_get "calls" top) as [calls|]; [|discriminate].
    destruct (dict_get "workflowName" top) as [[| b | z | s | elems | its]|];
      try discriminate.
    + destruct (parse_calls is_valid calls [None] []) as [nodes [|e|]] eqn:E;
        try discriminate.
      intros [= <-]. unfold get_task_graph, get_out_def_json_file. simpl.
      repeat split. exists calls, None. rewrite E, app_nil_r. auto.
    + destruct (parse_calls is_valid calls [Some s] []) as [nodes [|e|]] eqn:E;
        try discriminate.
      intros [= <-]. unfold get_task_graph, get_out_def_json_file. simpl.
      repeat split. exists calls, (Some s). rewrite E, app_nil_r. auto.
Qed.

Lemma init_without_submitted_files_witness :
  init uri_like failing_parser Comment.findall demo_loads
       (JDict [("id", JStr "w-2"); ("workflowName", JStr "sub"); ("calls", JDict [])])
  = init uri_like (parser_with_meta "gs://b/out_def.json") (fun _ _ => []) demo_loads
         (JDict [("id", JStr "w-2"); ("workflowName", JStr "sub"); ("calls", JDict [])]).
Proof.
  apply (proj1 (init_without_submitted_files
                  uri_like failing_parser Comment.findall demo_loads
                  [("id", JStr "w-2"); ("workflowName", JStr "sub"); ("calls", JDict [])]
                  eq_refl)).
Defined.

(** X11: the submitted files are read before anything else and their
    failures are not absorbed: a decoder failure on ['inputs'] ends the
    construction with that error, and a ['submittedFiles'] block without
    ['workflow'] ends it with [KeyError('workflow')], whatever the rest of
    the document holds. *)
Theorem init_submitted_files_errors (is_valid : string -> bool)
        (parse_document : string -> result wdl_document)
        (re_findall : string -> string -> list string)
        (json_loads : string -> result json)
        (top fields : list (string * json)) (inputs : string)
        (Hsub : dict_get "submittedFiles" top = Some (JDict fields))
        (Hinputs : dict_get "inputs" fields = Some (JStr inputs)) :
  (forall e,
      json_loads inputs = Raise e ->
      init is_valid parse_document re_findall json_loads (JDict top) = Failed e)
  /\ (forall input_json,
         json_loads inputs = Ok input_json ->
         dict_get "workflow" fields = None ->
         init is_valid parse_document re_findall json_loads (JDict top)
         = Failed (KeyError "workflow")).
Proof.
  split.
  - intros e He. unfold init, read_submitted_files. now rewrite Hsub, Hinputs, He.
  - intros d Hd Hw. unfold init, read_submitted_files.
    now rewrite Hsub, Hinputs, Hd, Hw.
Qed.

Lemma init_submitted_files_errors_witness :
  init uri_like failing_parser Comment.findall demo_loads
       (JDict [("submittedFiles", JDict [("inputs", JStr "demo")]);
               ("id", JStr "w-3"); ("workflowName", JStr "wf"); ("calls", JDict [])])
  = Failed (KeyError "workflow").
Proof.
  apply (proj2 (init_submitted_files_errors uri_like failing_parser Comment.findall
                  demo_loads
                  [("submittedFiles", JDict [("inputs", JStr "demo")]);
                   ("id", JStr "w-3"); ("workflowName", JStr "wf"); ("calls", JDict [])]
                  [("inputs", JStr "demo")] "demo" eq_refl eq_refl)
               demo_inputs); reflexivity.
Defined.

(** X12: [main] never builds a graph: without an argument it leaves with
    exit code 1, and with one it hands the file name itself to the
    constructor, which fails with [TypeError] whatever the file holds. *)
Theorem main_never_constructs (is_valid : string -> bool)
        (parse_document : string -> result wdl_document)
        (re_findall : string -> string -> list string)
        (json_loads : string -> result json) (argv : list string) :
  ((length argv < 2)%nat ->
   main is_valid parse_document re_findall json_loads argv = Usage 1)
  /\ ((2 <= length argv)%nat ->
      main is_valid parse_document re_findall json_loads argv = Ran (Failed TypeError))
  /\ forall self,
      main is_valid parse_document re_findall json_loads argv <> Ran (Constructed self).
Proof.
  unfold main. destruct argv as [|prog [|m_json_file rest]]; simpl;
    repeat split; intros; try lia; try reflexivity; discriminate.
Qed.

Lemma main_never_constructs_witness :
  main uri_like failing_parser Comment.findall demo_loads
       ["cromwell_metadata.py"; "metadata.json"]
  = Ran (Failed TypeError).
Proof.
  apply (main_never_constructs uri_like failing_parser Comment.findall demo_loads
                               ["cromwell_metadata.py"; "metadata.json"]).
  simpl. lia.
Defined.

(** X13: a constructed object answers with the document it was built from:
    [get_workflow_id] is the value under ['id'], and with submitted files
    [get_out_def_json_file] is the result of the locator on the text under
    ['workflow']. *)
Theorem init_accessors (is_valid : string -> bool)
        (parse_document : string -> result wdl_document)
        (re_findall : string -> string -> list string)
        (json_loads : string -> result json)
        (top : list (string * json)) (self : CromwellMetadata)
        (Hinit : init is_valid parse_document re_findall json_loads (JDict top)
                 = Constructed self) :
  dict_get "id" top = Some (get_workflow_id self)
  /\ _metadata_json self = JDict top
  /\ forall fields,
      dict_get "submittedFiles" top = Some (JDict fields) ->
      exists wdl_str,
        dict_get "workflow" fields = Some (JStr wdl_str)
        /\ _wdl_str self = Some wdl_str
        /\ get_out_def_json_file self
           = find_out_def_from_wdl parse_document re_findall wdl_str.
Proof.
  unfold init, read_submitted_files in Hinit.
  destruct (dict_get "submittedFiles" top) as [[| b | z | s | elems | fields]|];
    try discriminate.
  - destruct (dict_get "inputs" fields) as [[| b | z | inputs | elems | its]|];
      try discriminate.
    destruct (json_loads inputs) as [input_json|e]; [|discriminate].
    destruct (dict_get "workflow" fields) as [[| b | z | w | elems | its]|] eqn:Ew;
      try discriminate.
    destruct (dict_get "id" top) as [workflow_id|]; [|discriminate].
    destruct (dict_get "calls" top) as [calls|]; [|discriminate].
    destruct (dict_get "workflowName" top) as [[| b | z | s | elems | its]|];
      try discriminate;
      match type of Hinit with
      | context [parse_calls ?v ?c ?p ?s] =>
          destruct (parse_calls v c p s) as [nodes [|e|]]; try discriminate
      end;
      injection Hinit as <-; repeat split;
      intros f [= <-]; exists w; rewrite Ew; repeat split.
  - destruct (dict_get "id" top) as [workflow_id|]; [|discriminate].
    destruct (dict_get "calls" top) as [calls|]; [|discriminate].
    destruct (dict_get "workflowName" top) as [[| b | z | s | elems | its]|];
      try discriminate;
      match type of Hinit with
      | context [parse_calls ?v ?c ?p ?s] =>
          destruct (parse_calls v c p s) as [nodes [|e|]]; try discriminate
      end;
      injection Hinit as <-; repeat split; intros f Hf; discriminate Hf.
Qed.

Lemma init_accessors_witness :
  dict_get "id" [("id", JStr "w-1"); ("workflowName", JStr "wf");
                 ("submittedFiles", demo_submitted); ("calls", JDict [])]
  = Some (get_workflow_id demo_self).
Proof.
  apply (init_accessors uri_like failing_parser Comment.findall demo_loads _ demo_self).
  reflexivity.
Defined.

(** X14: an output is wired to a task through the task's inputs at any
    depth: for a leaf invocation with an ['inputs'] block, an output node is
    accepted as parent of the task node exactly when its path is a qualifying
    string somewhere in that block. *)
Theorem output_feeds_task (is_valid : string -> bool) (fields : list (string * json))
        (alias : option string) (parents : list (option string)) (shards : list Z)
        (s : Z) (inputs : json) (o : CMNode)
        (Hidx : dict_get "shardIndex" fields = Some (JInt s))
        (Hleaf : dict_get "subWorkflowMetadata" fields = None)
        (Hinputs : dict_get "inputs" fields = Some inputs)
        (Ho : type o = "output") :
  exists t rest,
    parse_call is_valid (JDict fields) alias parents shards = (t :: rest, Done)
    /\ (is_parent_cmnode o t = Ok true
        <-> exists p keys idx,
            output_path o = Some p /\ locates inputs keys idx p /\ is_valid p = true).
Proof.
  rewrite (parse_call_leaf_eq _ _ _ _ _ _ Hidx Hleaf). unfold emit, leaf_nodes.
  rewrite Hinputs. eexists. eexists. split; [reflexivity|].
  unfold is_parent_cmnode. rewrite Ho. simpl.
  assert (Hloc : forall p,
             In p (map triple_path (find_files_in_dict is_valid inputs [] []))
             <-> exists keys idx, locates inputs keys idx p /\ is_valid p = true).
  { intros p. rewrite in_map_iff. split.
    - intros (t & <- & Ht). apply find_files_in_dict_In in Ht.
      destruct Ht as (keys & idx & str & Hl & Hv & ->). exists keys, idx. now split.
    - intros (keys & idx & Hl & Hv).
      exists (Str.join "." ([] ++ keys), p, idx_or_sentinel ([] ++ idx)).
      split; [reflexivity|]. apply find_files_in_dict_In. exists keys, idx, p. auto. }
  destruct (find_files_in_dict is_valid inputs [] []) as [|y ys] eqn:E; simpl.
  - split; [discriminate|]. intros (p & keys & idx & _ & Hl & Hv).
    destruct (proj2 (Hloc p)); eauto.
  - split.
    + intros [= H]. apply opt_string_in_spec in H. destruct H as (p & Hp & Hin).
      apply Hloc in Hin. destruct Hin as (keys & idx & Hl & Hv). eauto 7.
    + intros (p & keys & idx & Hp & Hl & Hv). f_equal.
      apply opt_string_in_spec. exists p. split; [exact Hp|]. apply Hloc. eauto.
Qed.

Lemma output_feeds_task_witness :
  exists t rest,
    parse_call uri_like
      (JDict [("shardIndex", JInt 0);
              ("inputs", JDict [("bams", JList [JList [JStr "gs://b/a.bam"]])])])
      (Some "merge") [Some "wf"] []
    = (t :: rest, Done)
    /\ (is_parent_cmnode (demo_output (Some "wf.align") [0] "gs://b/a.bam") t = Ok true
        <-> exists p keys idx,
            output_path (demo_output (Some "wf.align") [0] "gs://b/a.bam") = Some p
            /\ locates (JDict [("bams", JList [JList [JStr "gs://b/a.bam"]])]) keys idx p
            /\ uri_like p = true).
Proof.
  apply (output_feeds_task uri_like
           [("shardIndex", JInt 0);
            ("inputs", JDict [("bams", JList [JList [JStr "gs://b/a.bam"]])])]
           (Some "merge") [Some "wf"] [] 0); reflexivity.
Defined.

(** ** The constructed graph *)

Lemma find_files_in_dict_valid (is_valid : string -> bool) (d : json)
      (parent : list string) (list_idx : list Z) :
  Forall (fun t => is_valid (triple_path t) = true)
         (find_files_in_dict is_valid d parent list_idx).
Proof.
  apply Forall_forall. intros t Ht. apply find_files_in_dict_In in Ht.
  destruct Ht as (keys & idx & s & _ & Hv & ->). exact Hv.
Qed.

Lemma tuple_or_none_valid (is_valid : string -> bool) (d : option json) :
  all_valid is_valid
            (tuple_or_none match d with
                           | Some v => Some (find_files_in_dict is_valid v [] [])
                           | None => None
                           end).
Proof.
  intros triples H. destruct d as [v|]; [|discriminate].
  assert (Hv := find_files_in_dict_valid is_valid v [] []).
  destruct (find_files_in_dict is_valid v [] []) as [|t ts]; [discriminate|].
  simpl in H. injection H as <-. split; [discriminate | exact Hv].
Qed.

Lemma well_formed_supported (is_valid : string -> bool) (n : CMNode) :
  well_formed_node is_valid n -> supported_type (type n) = true.
Proof. intros [[-> _] | [-> _]]; reflexivity. Qed.

(** X15: every node of a constructed graph has one of the two shapes of the
    node model, with paths the validator accepted; on any two nodes of the
    graph [is_parent_cmnode] returns and does not raise. *)
Theorem init_graph_well_formed (is_valid : string -> bool)
        (parse_document : string -> result wdl_document)
        (re_findall : string -> string -> list string)
        (json_loads : string -> result json)
        (metadata_json : json) (self : CromwellMetadata)
        (Hinit : init is_valid parse_document re_findall json_loads metadata_json
                 = Constructed self) :
  Forall (well_formed_node is_valid) (get_task_graph self)
  /\ forall n1 n2,
      In n1 (get_task_graph self) -> In n2 (get_task_graph self) ->
      exists b, is_parent_cmnode n1 n2 = Ok b.
Proof.
  assert (Hcalls : forall calls parents shards,
             Forall (well_formed_node is_valid)
                    (fst (parse_calls is_valid calls parents shards))).
  { apply parse_calls_Forall. intros fields alias ps sh s. unfold leaf_nodes.
    constructor.
    - left. simpl. do 3 (split; [reflexivity|]).
      split; [eexists; reflexivity|]. split; apply tuple_or_none_valid.
    - destruct (dict_get "outputs" fields) as [v|]; [|constructor].
      apply Forall_forall. intros x Hx. apply in_map_iff in Hx.
      destruct Hx as [t [<- Ht]]. right. simpl. repeat split.
      exists (triple_name t), (triple_path t). repeat split.
      assert (Hv := find_files_in_dict_valid is_valid v [] []).
      rewrite Forall_forall in Hv. now apply Hv. }
  assert (Hinputs : forall d, Forall (well_formed_node is_valid)
                                     (parse_input_json is_valid d)).
  { intros d. rewrite parse_input_json_eq. apply Forall_forall. intros x Hx.
    apply in_map_iff in Hx. destruct Hx as [t [<- Ht]]. right. simpl. repeat split.
    exists (triple_name t), (triple_path t). repeat split.
    assert (Hv := find_files_in_dict_valid is_valid d [] []).
    rewrite Forall_forall in Hv. now apply Hv. }
  assert (Hwf : Forall (well_formed_node is_valid) (get_task_graph self)).
  { unfold init in Hinit.
    destruct metadata_json as [| b | z | s | elems | top]; try discriminate.
    destruct (read_submitted_files _ _ _ top) as [[[i w] od]|e]; [|discriminate].
    destruct (dict_get "id" top) as [workflow_id|]; [|discriminate].
    destruct (dict_get "calls" top) as [calls|]; [|discriminate].
    destruct (dict_get "workflowName" top) as [[| b | z | s | elems | its]|];
      try discriminate.
    - assert (H := Hcalls calls [None] []).
      destruct (parse_calls is_valid calls [None] []) as [nodes [|e|]];
        try discriminate.
      injection Hinit as <-. unfold get_task_graph. simpl.
      apply Forall_app. split; [exact H | apply Hinputs].
    - assert (H := Hcalls calls [Some s] []).
      destruct (parse_calls is_valid calls [Some s] []) as [nodes [|e|]];
        try discriminate.
      injection Hinit as <-. unfold get_task_graph. simpl.
      apply Forall_app. split; [exact H | apply Hinputs]. }
  split; [exact Hwf|]. intros n1 n2 H1 H2. rewrite Forall_forall in Hwf.
  assert (S1 := well_formed_supported _ _ (Hwf n1 H1)).
  assert (S2 := well_formed_supported _ _ (Hwf n2 H2)).
  destruct (is_parent_cmnode n1 n2) as [b|e] eqn:E; [eauto|].
  assert (Hr : exists e, is_parent_cmnode n1 n2 = Raise e) by eauto.
  apply is_parent_cmnode_raises_iff in Hr. destruct Hr; congruence.
Qed.

Lemma init_graph_well_formed_witness :
  Forall (well_formed_node uri_like) (get_task_graph demo_self)
  /\ forall n1 n2,
      In n1 (get_task_graph demo_self) -> In n2 (get_task_graph demo_self) ->
      exists b, is_parent_cmnode n1 n2 = Ok b.
Proof.
  apply (init_graph_well_formed uri_like failing_parser Comment.findall demo_loads
                                demo_metadata demo_self).
  reflexivity.
Defined.

(** ** Lines of the source text *)

Lemma split_at_sep (sep : ascii) (a b : string) :
  Str.split sep (a ++ String sep b)%string = Str.split sep a ++ Str.split sep b.
Proof.
  induction a as [|c a IH]; simpl.
  - now rewrite Ascii.eqb_refl.
  - destruct (Ascii.eqb c sep); [now rewrite IH|].
    rewrite IH. assert (Hne := split_nonempty sep a).
    destruct (Str.split sep a) as [|seg segs]; [simpl in Hne; lia | reflexivity].
Qed.

(** X16: the comment scan takes the source text line by line: the values of
    two texts joined by a line feed are the values of the first followed by
    the values of the second. *)
Theorem find_val_from_wdl_lines (re_findall : string -> string -> list string)
        (regex_val text1 text2 : string) :
  find_val_from_wdl re_findall (text1 ++ String "010" text2)%string regex_val
  = find_val_from_wdl re_findall text1 regex_val
    ++ find_val_from_wdl re_findall text2 regex_val.
Proof.
  unfold find_val_from_wdl, Str.lines. rewrite split_at_sep. apply flat_map_app.
Qed.

(** * Leaf invocations and the nodes of a run *)

Lemma in_for_each {A : Type} (f : A -> run) (l : list A) (n : CMNode) :
  In n (fst (for_each f l)) -> exists x, In x l /\ In n (fst (f x)).
Proof.
  induction l as [|a l IH]; simpl; [contradiction|].
  unfold and_then. destruct (snd (f a)); simpl; intros H.
  - apply in_app_iff in H. destruct H as [H | H]; [exists a; auto|].
    destruct (IH H) as (x & Hx & Hn). exists x. auto.
  - exists a. auto.
  - exists a. auto.
Qed.

Lemma for_each_done_in {A : Type} (f : A -> run) (l : list A) :
  snd (for_each f l) = Done ->
  forall x, In x l -> snd (f x) = Done /\ incl (fst (f x)) (fst (for_each f l)).
Proof.
  induction l as [|a l IH]; simpl; [contradiction|].
  unfold and_then. destruct (snd (f a)) eqn:E; simpl; intros H x Hx;
    try (rewrite E in H; discriminate H).
  destruct Hx as [<- | Hx].
  - split; [exact E | apply incl_appl, incl_refl].
  - destruct (IH H x Hx) as [Hd Hi]. split; [exact Hd | now apply incl_appr].
Qed.

Lemma leaf_nodes_eq (is_valid : string -> bool) (fields : list (string * json))
      (alias : option string) (parents : list (option string))
      (shards : list Z) (s : Z) :
  leaf_nodes is_valid fields alias parents shards s
  = nodes_of_leaf is_valid (Str.join "." (truthy_entries (parents ++ [alias])))
                  (shards ++ [s]) fields.
Proof.
  unfold leaf_nodes, nodes_of_leaf, task_node.
  destruct (dict_get "outputs" fields); reflexivity.
Qed.

Lemma leaf_at_lengths (calls : json) (aliases : list (option string))
      (indices : list Z) (leaf : list (string * json)) :
  leaf_at calls aliases indices leaf ->
  length aliases = length indices /\ indices <> []
  /\ dict_get "subWorkflowMetadata" leaf = None.
Proof.
  induction 1 as [items k cs alias fields s Hkv Halias Hc Hidx Hleaf
                 | items k cs alias fields sf s sc aliases indices leaf
                         Hkv Halias Hc Hidx Hsub Hcalls Hbelow IH].
  - repeat split; [discriminate | assumption].
  - destruct IH as (Hlen & _ & Hleaf). simpl.
    repeat split; [now rewrite Hlen | discriminate | assumption].
Qed.

Section LeafFacts.

Variable is_valid : string -> bool.

(** Every node of a run is a node of a leaf invocation of the document, named
    and indexed along the way to that leaf. *)
Lemma parse_calls_sound (calls : json) :
  forall (parents : list (option string)) (shards : list Z) (n : CMNode),
    In n (fst (parse_calls is_valid calls parents shards)) ->
    exists aliases indices leaf,
      leaf_at calls aliases indices leaf
      /\ In n (nodes_of_leaf is_valid
                             (Str.join "." (truthy_entries (parents ++ aliases)))
                             (shards ++ indices) leaf).
Proof.
  induction calls as [calls IH] using json_size_induction.
  intros [|p ps] shards n; [rewrite parse_calls_no_parents; contradiction|].
  destruct calls as [| b | z | s | elems | items]; try contradiction.
  rewrite parse_calls_unfold. intros Hn.
  apply in_for_each in Hn. destruct Hn as ([k cl] & Hkv & Hn).
  unfold parse_call_list in Hn. simpl fst in Hn; simpl snd in Hn.
  destruct (alias_of_call_name k) as [alias|e] eqn:Ealias; [|contradiction].
  assert (Hcl := json_size_item _ _ _ Hkv).
  destruct cl as [| b | z | s | cs | its]; try contradiction.
  - destruct s; contradiction.
  - simpl in Hn. apply in_for_each in Hn. destruct Hn as (c & Hc & Hn).
    assert (Hcs := json_size_elem _ _ Hc).
    unfold parse_call in Hn.
    destruct c as [| b | z | s | elems | fields]; try contradiction.
    destruct (dict_get "shardIndex" fields) as [[| b | z | s | elems | its]|] eqn:Eidx;
      try contradiction.
    destruct (dict_get "subWorkflowMetadata" fields)
      as [[| b | z' | s | elems | sf]|] eqn:Esub; try contradiction.
    + destruct (dict_get "calls" sf) as [sc|] eqn:Ecalls; [|contradiction].
      apply IH in Hn.
      * destruct Hn as (aliases & indices & leaf & Hleaf & Hin).
        exists (alias :: aliases), (z :: indices), leaf.
        rewrite <- !app_assoc in Hin. simpl in Hin.
        split; [|exact Hin]. eapply leaf_below; eassumption.
      * assert (E1 := json_size_item _ _ _ (dict_get_In _ _ _ Esub)).
        assert (E2 := json_size_item _ _ _ (dict_get_In _ _ _ Ecalls)).
        lia.
    + unfold emit in Hn. cbn [fst] in Hn. rewrite leaf_nodes_eq in Hn.
      exists [alias], [z], fields. split; [|exact Hn].
      eapply leaf_here; eassumption.
  - destruct its; contradiction.
Qed.

(** A run that completes holds the nodes of every leaf invocation of the
    document. *)
Lemma parse_calls_complete (calls : json) (aliases : list (option string))
      (indices : list Z) (leaf : list (string * json)) :
  leaf_at calls aliases indices leaf ->
  forall (parents : list (option string)) (shards : list Z),
    parents <> [] ->
    snd (parse_calls is_valid calls parents shards) = Done ->
    incl (nodes_of_leaf is_valid (Str.join "." (truthy_entries (parents ++ aliases)))
                        (shards ++ indices) leaf)
         (fst (parse_calls is_valid calls parents shards)).
Proof.
  induction 1 as [items k cs alias fields s Hkv Halias Hc Hidx Hleaf
                 | items k cs alias fields sf s sc aliases indices leaf
                         Hkv Halias Hc Hidx Hsub Hcalls Hbelow IH];
    intros [|p ps] shards Hne Hdone; try congruence;
    rewrite parse_calls_unfold in *;
    destruct (for_each_done_in _ _ Hdone _ Hkv) as [Hd1 Hi1];
    rewrite (parse_call_list_list _ _ _ _ _ _ Halias) in Hd1, Hi1;
    destruct (for_each_done_in _ _ Hd1 _ Hc) as [Hd2 Hi2];
    (eapply incl_tran; [|exact Hi1]); (eapply incl_tran; [|exact Hi2]);
    unfold parse_call in *; rewrite Hidx in *.
  - rewrite Hleaf. unfold emit. cbn [fst]. rewrite leaf_nodes_eq. apply incl_refl.
  - rewrite Hsub, Hcalls in *.
    specialize (IH ((p :: ps) ++ [alias]) (shards ++ [s])).
    rewrite <- !app_assoc in IH. simpl in IH. apply IH; [discriminate | exact Hd2].
Qed.

End LeafFacts.

(** C3: an invocation record with a ['subWorkflowMetadata'] entry adds no
    node of its own: its run is the run of [parse_calls] on the calls of the
    sub-record, with the alias appended to the ancestor chain and the shard
    index of the invocation appended to the shard indices.  Every node it
    emits is a node of a leaf invocation inside the sub-record, named by the
    ancestor chain, the alias of this call and the aliases on the way to the
    leaf, with the shard indices of the ancestors, of this invocation and of
    the invocations on the way; when the run completes, every leaf invocation
    inside the sub-record has its nodes emitted so.  When the record or the
    sub-record is not of that shape, nothing is emitted at all. *)
Theorem parse_call_subworkflow (is_valid : string -> bool)
        (fields : list (string * json)) (sub : json)
        (alias : option string) (parents : list (option string)) (shards : list Z)
        (Hsub : dict_get "subWorkflowMetadata" fields = Some sub) :
  (forall s sub_fields sub_calls,
      dict_get "shardIndex" fields = Some (JInt s) ->
      sub = JDict sub_fields ->
      dict_get "calls" sub_fields = Some sub_calls ->
      parse_call is_valid (JDict fields) alias parents shards
      = parse_calls is_valid sub_calls (parents ++ [alias]) (shards ++ [s])
      /\ (forall call_name p ps,
             parents = p :: ps ->
             alias_of_call_name call_name = Ok alias ->
             parse_calls is_valid (JDict [(call_name, JList [JDict fields])])
                         parents shards
             = parse_calls is_valid sub_calls (parents ++ [alias]) (shards ++ [s]))
      /\ (forall n,
             In n (fst (parse_call is_valid (JDict fields) alias parents shards)) ->
             exists aliases indices leaf,
               leaf_at sub_calls aliases indices leaf
               /\ In n (nodes_of_leaf
                          is_valid
                          (Str.join "." (filter nonempty
                                                (present_entries
                                                   (parents ++ alias :: aliases))))
                          (shards ++ s :: indices) leaf))
      /\ (snd (parse_call is_valid (JDict fields) alias parents shards) = Done ->
          forall aliases indices leaf,
            leaf_at sub_calls aliases indices leaf ->
            incl (nodes_of_leaf
                    is_valid
                    (Str.join "." (filter nonempty
                                          (present_entries
                                             (parents ++ alias :: aliases))))
                    (shards ++ s :: indices) leaf)
                 (fst (parse_call is_valid (JDict fields) alias parents shards))))
  /\ ((exists s sub_fields sub_calls,
          dict_get "shardIndex" fields = Some (JInt s)
          /\ sub = JDict sub_fields
          /\ dict_get "calls" sub_fields = Some sub_calls)
      \/ (fst (parse_call is_valid (JDict fields) alias parents shards) = []
          /\ snd (parse_call is_valid (JDict fields) alias parents shards) <> Done)).
Proof.
  split.
  - intros s sub_fields sub_calls Hidx -> Hcalls.
    assert (Hc : parse_call is_valid (JDict fields) alias parents shards
                 = parse_calls is_valid sub_calls (parents ++ [alias]) (shards ++ [s])).
    { unfold parse_call. now rewrite Hidx, Hsub, Hcalls. }
    split; [exact Hc|]. split; [|split].
    + intros call_name p ps -> Halias. rewrite parse_calls_unfold.
      unfold parse_call_list; simpl. rewrite Halias; simpl.
      now rewrite !and_then_done_r.
    + intros n Hn. rewrite Hc in Hn. apply parse_calls_sound in Hn.
      destruct Hn as (aliases & indices & leaf & Hleaf & Hin).
      exists aliases, indices, leaf. split; [exact Hleaf|].
      rewrite <- truthy_entries_filter.
      rewrite <- !app_assoc in Hin. exact Hin.
    + intros Hdone aliases indices leaf Hleaf. rewrite Hc in *.
      rewrite <- truthy_entries_filter.
      assert (H := parse_calls_complete is_valid _ _ _ _ Hleaf
                     (parents ++ [alias]) (shards ++ [s])).
      rewrite <- !app_assoc in H. apply H; [|exact Hdone].
      destruct parents; discriminate.
  - unfold parse_call. rewrite Hsub.
    destruct (dict_get "shardIndex" fields) as [[| b | z | s | elems | its]|] eqn:Eidx;
      try (right; split; [reflexivity | discriminate]).
    destruct sub as [| b | z' | s | elems | sf];
      try (right; split; [reflexivity | discriminate]).
    destruct (dict_get "calls" sf) as [sc|] eqn:Ecalls;
      [|right; split; [reflexivity | discriminate]].
    left. exists z, sf, sc. repeat split; assumption.
Qed.

Lemma parse_call_subworkflow_witness :
  incl (nodes_of_leaf uri_like "wf.sub.align" [2; -1] demo_align_leaf)
       (fst (parse_call uri_like (JDict demo_sub_call) (Some "sub") [Some "wf"] [])).
Proof.
  destruct (proj1 (parse_call_subworkflow uri_like demo_sub_call (JDict demo_sub_fields)
                     (Some "sub") [Some "wf"] [] eq_refl)
                  2 demo_sub_fields _ eq_refl eq_refl eq_refl)
    as (_ & _ & _ & Hall).
  apply (Hall eq_refl [Some "align"] [-1] demo_align_leaf).
  apply (leaf_here [("sub.align", JList [JDict demo_align_leaf])]
                   "sub.align" [JDict demo_align_leaf] (Some "align")
                   demo_align_leaf (-1));
    try reflexivity; left; reflexivity.
Defined.

(** X1: every node of a run is a node of a leaf invocation of the document:
    its shard index is the shard indices of the caller followed by the
    [shardIndex] of each invocation on the way down to the leaf and of the
    leaf, one per level of nesting, and its name joins the truthy entries of
    the caller's chain followed by the alias of each call name on the way and
    of the leaf's.  A run that completes holds the nodes of every leaf
    invocation of the document. *)
Theorem parse_calls_depth (is_valid : string -> bool) (calls : json)
        (parents : list (option string)) (shards : list Z) :
  (forall n,
      In n (fst (parse_calls is_valid calls parents shards)) ->
      exists aliases indices leaf,
        leaf_at calls aliases indices leaf
        /\ length indices = length aliases
        /\ In n (nodes_of_leaf is_valid
                               (Str.join "." (truthy_entries (parents ++ aliases)))
                               (shards ++ indices) leaf)
        /\ shard_idx n = shards ++ indices
        /\ task_name n = Some (Str.join "." (truthy_entries (parents ++ aliases))))
  /\ (parents <> [] ->
      snd (parse_calls is_valid calls parents shards) = Done ->
      forall aliases indices leaf,
        leaf_at calls aliases indices leaf ->
        incl (nodes_of_leaf is_valid
                            (Str.join "." (truthy_entries (parents ++ aliases)))
                            (shards ++ indices) leaf)
             (fst (parse_calls is_valid calls parents shards))).
Proof.
  split.
  - intros n Hn. apply parse_calls_sound in Hn.
    destruct Hn as (aliases & indices & leaf & Hleaf & Hin).
    exists aliases, indices, leaf.
    destruct (leaf_at_lengths _ _ _ _ Hleaf) as (Hlen & _ & _).
    split; [exact Hleaf|]. split; [now symmetry|]. split; [exact Hin|].
    unfold nodes_of_leaf in Hin. destruct Hin as [<- | Hin]; [split; reflexivity|].
    apply in_map_iff in Hin. destruct Hin as (t & <- & _). split; reflexivity.
  - intros Hne Hdone aliases indices leaf Hleaf.
    now apply parse_calls_complete.
Qed.

Lemma parse_calls_depth_witness :
  incl (nodes_of_leaf uri_like "wf.sub.align" [2; -1] demo_align_leaf)
       (fst (parse_calls uri_like demo_nested_calls [Some "wf"] [])).
Proof.
  assert (Hne : [Some "wf"] <> @nil (option string)) by discriminate.
  apply (proj2 (parse_calls_depth uri_like demo_nested_calls [Some "wf"] [])
               Hne eq_refl [Some "sub"; Some "align"] [2; -1] demo_align_leaf).
  apply (leaf_below [("wf.sub", JList [JDict demo_sub_call])]
                    "wf.sub" [JDict demo_sub_call] (Some "sub") demo_sub_call
                    demo_sub_fields 2
                    (JDict [("sub.align", JList [JDict demo_align_leaf])])
                    [Some "align"] [-1] demo_align_leaf);
    try reflexivity; try (left; reflexivity).
  apply (leaf_here [("sub.align", JList [JDict demo_align_leaf])]
                   "sub.align" [JDict demo_align_leaf] (Some "align")
                   demo_align_leaf (-1));
    try reflexivity; left; reflexivity.
Defined.
